(** * bun-workspace: catalogs of a Bun workspace configuration

    A shallow embedding of [src/index.ts].  [parseBunWorkspace] parses a JSON
    text into a configuration object and returns a record of closures over two
    captured variables, [config] and [hasChanged].  Here the two variables
    form the state [Env], and every method of the returned object is a
    computation over [Env] that either completes normally or throws.

    JavaScript objects are embedded as their own enumerable string-keyed
    properties, listed in the order [Object.keys] enumerates them: array
    indices first, in ascending order, then the other names in creation
    order.  Every object of a document inherits from [Object.prototype],
    taken as the language defines it: a lookup [o[k]] that finds no own
    property finds the member of [Object.prototype] called [k] when there
    is one, a built-in function or, for "__proto__", [Object.prototype]
    itself; and an assignment to "__proto__" goes to the accessor.  The
    properties of what such a lookup finds are not embedded: a call that
    goes on to read or write one of them ends in the completion [Beyond],
    which the embedding does not follow further, or in the [TypeError] that
    the assignment is known to throw.

    Values have the shapes the interface [BunWorkspaceSchema] declares, with
    [workspaces] itself optional, as the code tests for it.  A document is a
    value: every object of it stands in one place.  The three members of
    [workspaces] are the fields of a record, so their relative order is not
    kept. *)

From Stdlib Require Import String Ascii List Bool Arith NArith Lia.
Import ListNotations.
Local Open Scope string_scope.
Local Open Scope list_scope.

(** ** Objects used as string-keyed maps *)

Module JsObject.

(** Own properties, in enumeration order. *)
Definition t (V : Type) : Type := list (string * V).

(** The names of the properties of [Object.prototype]. *)
Definition prototype_names : list string :=
  ["constructor"; "hasOwnProperty"; "isPrototypeOf"; "propertyIsEnumerable";
   "toLocaleString"; "toString"; "valueOf"; "__proto__";
   "__defineGetter__"; "__defineSetter__"; "__lookupGetter__"; "__lookupSetter__"].

Definition prototype_member (k : string) : bool :=
  existsb (String.eqb k) prototype_names.

(** What [o[k]] finds: an own property and its value, a member of
    [Object.prototype] (a built-in function or, for "__proto__",
    [Object.prototype] itself), or nothing ([undefined]). *)
Inductive property (V : Type) : Type :=
| Own (v : V)
| Inherited
| Absent.
Arguments Own {V} v.
Arguments Inherited {V}.
Arguments Absent {V}.

(** Decimal digit value of a character. *)
Definition digit (c : ascii) : option N :=
  let n := N_of_ascii c in
  if ((48 <=? n) && (n <=? 57))%N then Some (n - 48)%N else None.

Fixpoint digits (s : string) (acc : N) : option N :=
  match s with
  | EmptyString => Some acc
  | String c r =>
      match digit c with
      | Some d => digits r (10 * acc + d)%N
      | None => None
      end
  end.

(** A property name is an array index when it is the canonical decimal
    form of an integer below 2^32 - 1. *)
Definition array_index (k : string) : option N :=
  match k with
  | EmptyString => None
  | String c r =>
      if (N_of_ascii c =? 48)%N then
        match r with EmptyString => Some 0%N | _ => None end
      else
        match digits k 0 with
        | Some n => if (n <? 4294967295)%N then Some n else None
        | None => None
        end
  end.

(** [precedes k1 k2]: a property named [k1] may be enumerated before one
    named [k2]: array indices come first, in ascending order, and the
    other names follow in creation order. *)
Definition precedes (k1 k2 : string) : bool :=
  match array_index k1, array_index k2 with
  | Some a, Some b => (a <=? b)%N
  | Some _, None => true
  | None, None => true
  | None, Some _ => false
  end.

Section Ops.
Context {V : Type}.

Definition empty : t V := [].

(** [Object.keys(o)] *)
Definition keys (o : t V) : list string := map fst o.

(** The value of the own property [k] of [o]. *)
Fixpoint get (k : string) (o : t V) : option V :=
  match o with
  | [] => None
  | (k', v) :: r => if String.eqb k k' then Some v else get k r
  end.

Definition has (k : string) (o : t V) : bool :=
  match get k o with Some _ => true | None => false end.

(** [o[k]] *)
Definition lookup (k : string) (o : t V) : property V :=
  match get k o with
  | Some v => Own v
  | None => if prototype_member k then Inherited else Absent
  end.

(** Assignment to an existing property keeps its place. *)
Fixpoint replace (k : string) (v : V) (o : t V) : t V :=
  match o with
  | [] => []
  | (k', v') :: r =>
      if String.eqb k k' then (k, v) :: r else (k', v') :: replace k v r
  end.

(** A new array-index property goes before the first property that is
    not an array index or has a larger index. *)
Fixpoint insert_index (n : N) (k : string) (v : V) (o : t V) : t V :=
  match o with
  | [] => [(k, v)]
  | (k', v') :: r =>
      match array_index k' with
      | Some m =>
          if (n <? m)%N then (k, v) :: o
          else (k', v') :: insert_index n k v r
      | None => (k, v) :: o
      end
  end.

(** Creation of a property that [o] does not have. *)
Definition create (k : string) (v : V) (o : t V) : t V :=
  match array_index k with
  | Some n => insert_index n k v o
  | None => o ++ [(k, v)]
  end.

(** The own property [k] of [o] defined or overwritten with [v]: what
    [JSON.parse] does for a member, and what [o[k] = v] does when [o] has
    the property or inherits none of that name. *)
Definition set (k : string) (v : V) (o : t V) : t V :=
  if has k o then replace k v o else create k v o.

(** [o[k] = v] for a value [v] that is not an object.  The members of
    [Object.prototype] are writable, so the assignment gives [o] a property
    of its own; only "__proto__" is an accessor, whose setter ignores such
    a value, unless [o] has a property of its own with that name. *)
Definition assign (k : string) (v : V) (o : t V) : t V :=
  if String.eqb k "__proto__" && negb (has k o) then o else set k v o.

(** [delete o[k]] *)
Definition delete (k : string) (o : t V) : t V :=
  filter (fun kv => negb (String.eqb k (fst kv))) o.

(** The objects the runtime can build: no name twice, and the names in
    enumeration order. *)
Fixpoint nodup_keys (l : list string) : bool :=
  match l with
  | [] => true
  | k :: r => negb (existsb (String.eqb k) r) && nodup_keys r
  end.

Fixpoint ordered_keys (l : list string) : bool :=
  match l with
  | [] => true
  | k :: r => forallb (precedes k) r && ordered_keys r
  end.

Definition wf (o : t V) : bool :=
  nodup_keys (keys o) && ordered_keys (keys o).

(** The object built by defining the properties of [l] one after the
    other, as [JSON.parse] does for the members of an object text. *)
Definition of_list (l : list (string * V)) : t V :=
  fold_left (fun o kv => set (fst kv) (snd kv) o) l empty.

End Ops.

End JsObject.

Arguments JsObject.prototype_member : simpl never.
Arguments JsObject.assign : simpl never.


(** ** The configuration document ([BunWorkspaceSchema]) *)

(** [Record<string, string>]: package name to version. *)
Definition Catalog : Type := JsObject.t string.

Record Workspaces : Type := mkWorkspaces {
  packages : option (list string);
  (* Default catalog for dependencies *)
  catalog : option Catalog;
  (* Named catalogs for grouped dependencies *)
  catalogs : option (JsObject.t Catalog)
}.

Record BunWorkspaceSchema : Type := mkSchema {
  workspaces : option Workspaces
}.

Definition set_packages (l : option (list string)) (w : Workspaces) : Workspaces :=
  mkWorkspaces l (catalog w) (catalogs w).
Definition set_catalog (c : option Catalog) (w : Workspaces) : Workspaces :=
  mkWorkspaces (packages w) c (catalogs w).
Definition set_catalogs (cs : option (JsObject.t Catalog)) (w : Workspaces) : Workspaces :=
  mkWorkspaces (packages w) (catalog w) cs.

(** [{}] *)
Definition empty_workspaces : Workspaces := mkWorkspaces None None None.

(** Truthiness of a possibly undefined object: every object is truthy. *)
Definition truthy_obj {A : Type} (o : option A) : bool :=
  match o with Some _ => true | None => false end.

(** Truthiness of [o[k]] in an object of objects, and in an object of
    strings: the members of [Object.prototype] are objects, and the empty
    string is not truthy. *)
Definition truthy_entry {V : Type} (p : JsObject.property V) : bool :=
  match p with
  | JsObject.Own _ | JsObject.Inherited => true
  | JsObject.Absent => false
  end.

Definition truthy_version (p : JsObject.property string) : bool :=
  match p with
  | JsObject.Own s => negb (String.eqb s EmptyString)
  | JsObject.Inherited => true
  | JsObject.Absent => false
  end.

(** Optional chaining [a?.f]. *)
Definition chain {A B : Type} (a : option A) (f : A -> option B) : option B :=
  match a with Some x => f x | None => None end.
Notation "a ?. f" := (chain a f) (at level 49, left associativity).

(** [a || b] on a possibly undefined object. *)
Definition or_else {A : Type} (a : option A) (b : A) : A :=
  match a with Some x => x | None => b end.

(** [o?.[k]] *)
Definition index {V : Type} (o : option (JsObject.t V)) (k : string)
    : JsObject.property V :=
  match o with
  | Some x => JsObject.lookup k x
  | None => JsObject.Absent
  end.

(** Documents whose objects the runtime can build. *)
Definition wf_catalogs (cs : JsObject.t Catalog) : bool :=
  JsObject.wf cs && forallb (fun kv => JsObject.wf (snd kv)) cs.

Definition wf_workspaces (w : Workspaces) : bool :=
  match catalog w with Some c => JsObject.wf c | None => true end
  && match catalogs w with Some cs => wf_catalogs cs | None => true end.

Definition wf_schema (d : BunWorkspaceSchema) : bool :=
  match workspaces d with Some w => wf_workspaces w | None => true end.

(** ** The JSON object of the runtime, on configuration documents

    [JSON.stringify(value, null, space)] and [JSON.parse(text)] restricted to
    the values of type [BunWorkspaceSchema].  Strings are the bytes of their
    UTF-8 form.  [stringify] writes the members of [workspaces] in the order
    of the interface declaration.  [parse] accepts the JSON texts of values
    of that type, with any white space, member order and escapes; a text
    with another member or with a value of another type is not the text of a
    configuration document, and [parse] returns nothing for it.
    [well_formed] tells whether a text is a JSON text at all. *)

Module JSON.

Definition text : Type := list ascii.

Definition chr (n : N) : ascii := ascii_of_N n.
Definition code (c : ascii) : N := N_of_ascii c.

Definition dquote : ascii := chr 34.
Definition backslash : ascii := chr 92.
Definition newline : ascii := chr 10.
Definition space_char : ascii := chr 32.
Definition comma : ascii := chr 44.
Definition colon : ascii := chr 58.
Definition lbrace : ascii := chr 123.
Definition rbrace : ascii := chr 125.
Definition lbracket : ascii := chr 91.
Definition rbracket : ascii := chr 93.

(** *** Serialization *)

Definition hex_digit (n : N) : ascii :=
  if (n <? 10)%N then chr (48 + n) else chr (87 + n).

(** One character of a quoted string. *)
Definition escape (c : ascii) : text :=
  let n := code c in
  if (n =? 34)%N then [backslash; dquote]
  else if (n =? 92)%N then [backslash; backslash]
  else if (n =? 8)%N then [backslash; chr 98]
  else if (n =? 12)%N then [backslash; chr 102]
  else if (n =? 10)%N then [backslash; chr 110]
  else if (n =? 13)%N then [backslash; chr 114]
  else if (n =? 9)%N then [backslash; chr 116]
  else if (n <? 32)%N then
    [backslash; chr 117; chr 48; chr 48; hex_digit (n / 16); hex_digit (n mod 16)]
  else [c].

(** [QuoteJSONString] *)
Definition quote (s : string) : text :=
  dquote :: flat_map escape (list_ascii_of_string s) ++ [dquote].

(** The gap of a numeric [space] argument: that many spaces, at most 10. *)
Definition gap_of (space : nat) : text := repeat space_char (Nat.min space 10).

(** A line break followed by the indentation; nothing without a gap. *)
Definition line (gap indent : text) : text :=
  match gap with [] => [] | _ => newline :: indent end.

Definition join (sep : text) (l : list text) : text :=
  match l with
  | [] => []
  | x :: r => x ++ flat_map (fun y => sep ++ y) r
  end.

(** The text of an object or array with the given member texts, at the
    indentation [indent] of the enclosing value. *)
Definition block (opn cls : ascii) (gap indent : text) (members : list text) : text :=
  match members with
  | [] => [opn; cls]
  | _ =>
      opn :: line gap (indent ++ gap)
        ++ join (comma :: line gap (indent ++ gap)) members
        ++ line gap indent ++ [cls]
  end.

Definition member (gap : text) (k : string) (v : text) : text :=
  quote k ++ colon :: match gap with [] => [] | _ => [space_char] end ++ v.

Definition object_text {V : Type} (pv : text -> V -> text)
    (gap indent : text) (o : JsObject.t V) : text :=
  block lbrace rbrace gap indent
    (map (fun kv => member gap (fst kv) (pv (indent ++ gap) (snd kv))) o).

Definition array_text (gap indent : text) (l : list string) : text :=
  block lbracket rbracket gap indent (map quote l).

Definition catalog_text (gap indent : text) (c : Catalog) : text :=
  object_text (fun _ v => quote v) gap indent c.

Definition catalogs_text (gap indent : text) (cs : JsObject.t Catalog) : text :=
  object_text (catalog_text gap) gap indent cs.

(** A member whose value is [undefined] is left out. *)
Definition opt_member {A : Type} (gap : text) (k : string) (pv : A -> text)
    (o : option A) : list text :=
  match o with Some a => [member gap k (pv a)] | None => [] end.

Definition workspaces_text (gap indent : text) (w : Workspaces) : text :=
  block lbrace rbrace gap indent
    (opt_member gap "packages" (array_text gap (indent ++ gap)) (packages w)
     ++ opt_member gap "catalog" (catalog_text gap (indent ++ gap)) (catalog w)
     ++ opt_member gap "catalogs" (catalogs_text gap (indent ++ gap)) (catalogs w)).

Definition schema_text (gap : text) (d : BunWorkspaceSchema) : text :=
  block lbrace rbrace gap []
    (opt_member gap "workspaces" (workspaces_text gap gap) (workspaces d)).

(** [JSON.stringify(d, null, space)] *)
Definition stringify (d : BunWorkspaceSchema) (space : nat) : string :=
  string_of_list_ascii (schema_text (gap_of space) d).

(** *** Parsing *)

Definition parser (A : Type) : Type := text -> option (A * text).

Definition is_ws (c : ascii) : bool :=
  let n := code c in
  ((n =? 32) || (n =? 9) || (n =? 10) || (n =? 13))%N.

(** Skip white space. *)
Fixpoint ws (s : text) : text :=
  match s with
  | c :: r => if is_ws c then ws r else s
  | [] => []
  end.

Definition expect (c : ascii) (s : text) : option text :=
  match s with
  | c' :: r => if (code c' =? code c)%N then Some r else None
  | [] => None
  end.

Definition hex_value (c : ascii) : option N :=
  let n := code c in
  if ((48 <=? n) && (n <=? 57))%N then Some (n - 48)%N
  else if ((97 <=? n) && (n <=? 102))%N then Some (n - 87)%N
  else if ((65 <=? n) && (n <=? 70))%N then Some (n - 55)%N
  else None.

Definition hex4 (a b c d : ascii) : option N :=
  match hex_value a, hex_value b, hex_value c, hex_value d with
  | Some x, Some y, Some z, Some w => Some (4096 * x + 256 * y + 16 * z + w)%N
  | _, _, _, _ => None
  end.

(** The UTF-8 bytes of a code point, most significant byte last. *)
Definition utf8_rev (cp : N) : list ascii :=
  if (cp <? 128)%N then [chr cp]
  else if (cp <? 2048)%N then [chr (128 + cp mod 64); chr (192 + cp / 64)]
  else if (cp <? 65536)%N then
    [chr (128 + cp mod 64); chr (128 + (cp / 64) mod 64); chr (224 + cp / 4096)]
  else
    [chr (128 + cp mod 64); chr (128 + (cp / 64) mod 64);
     chr (128 + (cp / 4096) mod 64); chr (240 + cp / 262144)].

Definition is_high_surrogate (cp : N) : bool := ((55296 <=? cp) && (cp <? 56320))%N.
Definition is_low_surrogate (cp : N) : bool := ((56320 <=? cp) && (cp <? 57344))%N.

(** The low half of a surrogate pair, written as an escape. *)
Definition low_escape (s : text) : option (N * text) :=
  match s with
  | b :: u :: h1 :: h2 :: h3 :: h4 :: r =>
      if ((code b =? 92) && (code u =? 117))%N then
        match hex4 h1 h2 h3 h4 with
        | Some lo => if is_low_surrogate lo then Some (lo, r) else None
        | None => None
        end
      else None
  | _ => None
  end.

(** The characters of a string literal after its opening quote, up to the
    closing one.  [acc] holds the bytes read so far, last first. *)
Fixpoint chars (s : text) (acc : list ascii) : option (string * text) :=
  match s with
  | [] => None
  | c :: r =>
      let n := code c in
      if (n =? 34)%N then Some (string_of_list_ascii (rev acc), r)
      else if (n =? 92)%N then
        match r with
        | [] => None
        | e :: r1 =>
            let m := code e in
            if (m =? 34)%N then chars r1 (dquote :: acc)
            else if (m =? 92)%N then chars r1 (backslash :: acc)
            else if (m =? 47)%N then chars r1 (chr 47 :: acc)
            else if (m =? 98)%N then chars r1 (chr 8 :: acc)
            else if (m =? 102)%N then chars r1 (chr 12 :: acc)
            else if (m =? 110)%N then chars r1 (chr 10 :: acc)
            else if (m =? 114)%N then chars r1 (chr 13 :: acc)
            else if (m =? 116)%N then chars r1 (chr 9 :: acc)
            else if (m =? 117)%N then
              match r1 with
              | h1 :: h2 :: h3 :: h4 :: r2 =>
                  match hex4 h1 h2 h3 h4 with
                  | Some cp =>
                      if is_high_surrogate cp then
                        match r2 with
                        | _ :: _ :: _ :: _ :: _ :: _ :: r3 =>
                            match low_escape r2 with
                            | Some (lo, _) =>
                                chars r3
                                  (utf8_rev (65536 + 1024 * (cp - 55296) + (lo - 56320))
                                     ++ acc)
                            | None => None
                            end
                        | _ => None
                        end
                      else if is_low_surrogate cp then None
                      else chars r2 (utf8_rev cp ++ acc)
                  | None => None
                  end
              | _ => None
              end
            else None
        end
      else if (n <? 32)%N then None
      else chars r (c :: acc)
  end.

Definition string_lit : parser string :=
  fun s => match expect dquote s with Some r => chars r [] | None => None end.

Notation "' p <- a ; b" :=
  (match a with Some p => b | None => None end)
  (at level 61, p pattern, a at next level, right associativity, only parsing).

(** The members of an object after the first name has been reached.
    [field k acc] reads the value of the member named [k] and stores it
    in [acc]. *)
Fixpoint members {R : Type} (fuel : nat) (field : string -> R -> parser R)
    (acc : R) (s : text) : option (R * text) :=
  match fuel with
  | O => None
  | S fuel' =>
      ' (k, s1) <- string_lit s ;
      ' s2 <- expect colon (ws s1) ;
      ' (acc', s3) <- field k acc (ws s2) ;
      match ws s3 with
      | c :: s4 =>
          if (code c =? 44)%N then members fuel' field acc' (ws s4)
          else if (code c =? 125)%N then Some (acc', s4)
          else None
      | [] => None
      end
  end.

Definition object {R : Type} (fuel : nat) (field : string -> R -> parser R)
    (init : R) : parser R :=
  fun s =>
    ' s1 <- expect lbrace s ;
    match expect rbrace (ws s1) with
    | Some s2 => Some (init, s2)
    | None => members fuel field init (ws s1)
    end.

Fixpoint elements (fuel : nat) (acc : list string) (s : text)
    : option (list string * text) :=
  match fuel with
  | O => None
  | S fuel' =>
      ' (x, s1) <- string_lit s ;
      match ws s1 with
      | c :: s2 =>
          if (code c =? 44)%N then elements fuel' (x :: acc) (ws s2)
          else if (code c =? 93)%N then Some (rev (x :: acc), s2)
          else None
      | [] => None
      end
  end.

Definition array (fuel : nat) : parser (list string) :=
  fun s =>
    ' s1 <- expect lbracket s ;
    match expect rbracket (ws s1) with
    | Some s2 => Some ([], s2)
    | None => elements fuel [] (ws s1)
    end.

(** An object whose members all have values read by [pv]; a name that
    comes again overwrites the earlier value. *)
Definition record {V : Type} (fuel : nat) (pv : parser V) : parser (JsObject.t V) :=
  object fuel
    (fun k o s => ' (v, r) <- pv s ; Some (JsObject.set k v o, r))
    JsObject.empty.

Definition catalog_value (fuel : nat) : parser Catalog :=
  record fuel string_lit.

Definition catalogs_value (fuel : nat) : parser (JsObject.t Catalog) :=
  record fuel (catalog_value fuel).

Definition workspaces_field (fuel : nat) (k : string) (w : Workspaces)
    : parser Workspaces :=
  fun s =>
    if String.eqb k "packages" then
      ' (l, r) <- array fuel s ; Some (set_packages (Some l) w, r)
    else if String.eqb k "catalog" then
      ' (c, r) <- catalog_value fuel s ; Some (set_catalog (Some c) w, r)
    else if String.eqb k "catalogs" then
      ' (cs, r) <- catalogs_value fuel s ; Some (set_catalogs (Some cs) w, r)
    else None.

Definition workspaces_value (fuel : nat) : parser Workspaces :=
  object fuel (workspaces_field fuel) empty_workspaces.

Definition schema_field (fuel : nat) (k : string) (d : BunWorkspaceSchema)
    : parser BunWorkspaceSchema :=
  fun s =>
    if String.eqb k "workspaces" then
      ' (w, r) <- workspaces_value fuel s ; Some (mkSchema (Some w), r)
    else None.

Definition schema_value (fuel : nat) : parser BunWorkspaceSchema :=
  object fuel (schema_field fuel) (mkSchema None).

(** [JSON.parse(content)]: the document, or nothing when [content] is not
    the JSON text of a configuration document. *)
Definition parse (content : string) : option BunWorkspaceSchema :=
  let s := list_ascii_of_string content in
  ' (d, r) <- schema_value (List.length s) (ws s) ;
  match ws r with
  | [] => Some d
  | _ :: _ => None
  end.

(** *** The JSON texts *)

Definition is_digit (c : ascii) : bool :=
  let n := code c in ((48 <=? n) && (n <=? 57))%N.

Fixpoint skip_digits (s : text) : text :=
  match s with
  | c :: r => if is_digit c then skip_digits r else s
  | [] => []
  end.

(** One digit at least. *)
Definition some_digits (s : text) : option text :=
  match s with
  | c :: r => if is_digit c then Some (skip_digits r) else None
  | [] => None
  end.

(** The number at the head of [s], and what follows it. *)
Definition skip_number (s : text) : option text :=
  let s1 := match s with
            | c :: r => if (code c =? 45)%N then r else s
            | [] => s
            end in
  ' s2 <- match s1 with
          | c :: r => if (code c =? 48)%N then Some r else some_digits s1
          | [] => None
          end ;
  ' s3 <- match s2 with
          | c :: r => if (code c =? 46)%N then some_digits r else Some s2
          | [] => Some s2
          end ;
  match s3 with
  | c :: r =>
      if ((code c =? 101) || (code c =? 69))%N then
        match r with
        | d :: r1 =>
            if ((code d =? 43) || (code d =? 45))%N then some_digits r1
            else some_digits r
        | [] => None
        end
      else Some s3
  | [] => Some s3
  end.

(** The characters of a string literal, any escape of four hexadecimal
    digits included. *)
Fixpoint skip_chars (s : text) : option text :=
  match s with
  | [] => None
  | c :: r =>
      let n := code c in
      if (n =? 34)%N then Some r
      else if (n =? 92)%N then
        match r with
        | [] => None
        | e :: r1 =>
            let m := code e in
            if ((m =? 34) || (m =? 92) || (m =? 47) || (m =? 98) || (m =? 102)
                || (m =? 110) || (m =? 114) || (m =? 116))%N
            then skip_chars r1
            else if (m =? 117)%N then
              match r1 with
              | h1 :: h2 :: h3 :: h4 :: r2 =>
                  match hex4 h1 h2 h3 h4 with
                  | Some _ => skip_chars r2
                  | None => None
                  end
              | _ => None
              end
            else None
        end
      else if (n <? 32)%N then None
      else skip_chars r
  end.

Definition skip_string (s : text) : option text :=
  ' r <- expect dquote s ; skip_chars r.

Fixpoint skip_word (w : list ascii) (s : text) : option text :=
  match w with
  | [] => Some s
  | c :: w' => ' r <- expect c s ; skip_word w' r
  end.

(** A string, a number or one of the three literal names. *)
Definition skip_scalar (s : text) : option text :=
  match s with
  | [] => None
  | c :: _ =>
      let n := code c in
      if (n =? 34)%N then skip_string s
      else if (n =? 116)%N then skip_word (list_ascii_of_string "true") s
      else if (n =? 102)%N then skip_word (list_ascii_of_string "false") s
      else if (n =? 110)%N then skip_word (list_ascii_of_string "null") s
      else skip_number s
  end.

(** The name of a member and its colon. *)
Definition skip_key (s : text) : option text :=
  ' s1 <- skip_string s ; expect colon (ws s1).

Inductive frame : Type := InObject | InArray.

(** [scan fuel false stack s]: [s] is a value and what closes the objects
    and arrays of [stack]; [scan fuel true stack s]: [s] is what follows a
    value there. *)
Fixpoint scan (fuel : nat) (after_value : bool) (stack : list frame) (s : text) : bool :=
  match fuel with
  | O => false
  | S fuel' =>
      if after_value then
        match stack, ws s with
        | [], [] => true
        | [], _ :: _ => false
        | _ :: _, [] => false
        | InArray :: outer, c :: r =>
            if (code c =? 44)%N then scan fuel' false stack r
            else if (code c =? 93)%N then scan fuel' true outer r
            else false
        | InObject :: outer, c :: r =>
            if (code c =? 44)%N then
              match skip_key (ws r) with
              | Some r1 => scan fuel' false stack r1
              | None => false
              end
            else if (code c =? 125)%N then scan fuel' true outer r
            else false
        end
      else
        match ws s with
        | [] => false
        | c :: r =>
            if (code c =? 91)%N then
              match expect rbracket (ws r) with
              | Some r1 => scan fuel' true stack r1
              | None => scan fuel' false (InArray :: stack) r
              end
            else if (code c =? 123)%N then
              match expect rbrace (ws r) with
              | Some r1 => scan fuel' true stack r1
              | None =>
                  match skip_key (ws r) with
                  | Some r1 => scan fuel' false (InObject :: stack) r1
                  | None => false
                  end
              end
            else
              match skip_scalar (c :: r) with
              | Some r1 => scan fuel' true stack r1
              | None => false
              end
        end
  end.

(** [content] is a JSON text: [JSON.parse] returns a value for it. *)
Definition well_formed (content : string) : bool :=
  let s := list_ascii_of_string content in
  scan (2 * List.length s + 2) false [] s.

End JSON.

(** ** Completions and the captured variables *)

Inductive JsError : Type :=
| SyntaxError
| TypeError.

(** How a call ends: normally, by throwing, or by leaving the values of
    the embedding: it reads or writes a property of a built-in object of the
    runtime, or holds a value that is not of the declared type.  The
    captured variables are followed after a normal completion only. *)
Inductive completion (A : Type) : Type :=
| Normal (a : A)
| Throw (e : JsError)
| Beyond.
Arguments Normal {A} a.
Arguments Throw {A} e.
Arguments Beyond {A}.

(** The variables [config] and [hasChanged] captured by the closures. *)
Record Env : Type := mkEnv {
  config : BunWorkspaceSchema;
  hasChanged : bool
}.

(** A computation over the captured variables. *)
Definition M (A : Type) : Type := Env -> completion (A * Env).

Definition ret {A : Type} (a : A) : M A := fun e => Normal (a, e).

Definition bind {A B : Type} (m : M A) (f : A -> M B) : M B :=
  fun e =>
    match m e with
    | Normal (a, e') => f a e'
    | Throw err => Throw err
    | Beyond => Beyond
    end.

Definition throw {A : Type} (err : JsError) : M A := fun _ => Throw err.

Definition beyond {A : Type} : M A := fun _ => Beyond.

Declare Scope js_scope.
Delimit Scope js_scope with js.
Notation "x <- m ;; k" := (bind m (fun x => k))
  (at level 61, m at next level, right associativity) : js_scope.
Notation "m ;; k" := (bind m (fun _ => k))
  (at level 61, right associativity) : js_scope.
Local Open Scope js_scope.

Definition when (b : bool) (m : M unit) : M unit :=
  if b then m else ret tt.

Definition read_config : M BunWorkspaceSchema := fun e => Normal (config e, e).

Definition write_config (d : BunWorkspaceSchema) : M unit :=
  fun e => Normal (tt, mkEnv d (hasChanged e)).

Definition write_hasChanged (b : bool) : M unit :=
  fun e => Normal (tt, mkEnv (config e) b).

(** [config.workspaces] where a member of it is about to be accessed: the
    access throws on [undefined]. *)
Definition workspaces_ref : M Workspaces :=
  cfg <- read_config ;;
  match workspaces cfg with
  | Some w => ret w
  | None => throw TypeError
  end.

(** [config.workspaces = w] *)
Definition write_workspaces (w : Workspaces) : M unit :=
  write_config (mkSchema (Some w)).

(** A member access on a possibly undefined object. *)
Definition deref {A : Type} (o : option A) : M A :=
  match o with
  | Some a => ret a
  | None => throw TypeError
  end.

(** [x?.[k]] for the [x] that a lookup in [workspaces.catalogs] found. *)
Definition index_entry (x : JsObject.property Catalog) (k : string)
    : M (JsObject.property string) :=
  match x with
  | JsObject.Own c => ret (JsObject.lookup k c)
  | JsObject.Inherited => beyond
  | JsObject.Absent => ret JsObject.Absent
  end.

(** [x || {}] for such an [x]. *)
Definition or_empty (x : JsObject.property Catalog) : JsObject.property Catalog :=
  match x with
  | JsObject.Absent => JsObject.Own JsObject.empty
  | _ => x
  end.

(** [catalogs[name] = catalogs[name] || {}] followed by the assignment
    [catalogs[name][packageName] = version], where [catalogs[name]] is a
    member of [Object.prototype].  The first assignment makes the built-in
    function an own property of [catalogs]; for "__proto__" it makes
    [Object.prototype] the prototype of [catalogs] once more.  The second
    writes on the built-in object.  The properties "name" and "length" of a
    built-in function are read-only, and the code is that of a module, so it
    is strict: the assignment throws. *)
Definition builtin_write {A : Type} (name packageName : string) : completion A :=
  if negb (String.eqb name "__proto__")
     && (String.eqb packageName "name" || String.eqb packageName "length")
  then Throw TypeError
  else Beyond.

Definition write_builtin (name packageName : string) : M unit :=
  fun _ => builtin_write name packageName.

(** ** The closures of [parseBunWorkspace] *)

Module BunWorkspace.

(* Initialize workspaces object if it doesn't exist *)
Definition ensureWorkspaces : M unit :=
  cfg <- read_config ;;
  when (negb (truthy_obj (workspaces cfg)))
    (write_workspaces empty_workspaces ;;
     write_hasChanged true).

(* Create new catalog (default or named) *)
Definition createCatalog (name : string) : M unit :=
  ensureWorkspaces ;;
  if String.eqb name "default" then
    w <- workspaces_ref ;;
    when (negb (truthy_obj (catalog w)))
      (write_workspaces (set_catalog (Some JsObject.empty) w) ;;
       write_hasChanged true)
  else
    w <- workspaces_ref ;;
    when (negb (truthy_obj (catalogs w)))
      (write_workspaces (set_catalogs (Some JsObject.empty) w)) ;;
    w <- workspaces_ref ;;
    cs <- deref (catalogs w) ;;
    when (negb (truthy_entry (JsObject.lookup name cs)))
      (write_workspaces (set_catalogs (Some (JsObject.set name JsObject.empty cs)) w) ;;
       write_hasChanged true).

(* Remove catalog and all its packages *)
Definition removeCatalog (name : string) : M unit :=
  cfg <- read_config ;;
  if String.eqb name "default" then
    when (truthy_obj (workspaces cfg ?. catalog))
      (w <- workspaces_ref ;;
       write_workspaces (set_catalog None w) ;;
       write_hasChanged true)
  else
    when (truthy_entry (index (workspaces cfg ?. catalogs) name))
      (w <- workspaces_ref ;;
       cs <- deref (catalogs w) ;;
       write_workspaces (set_catalogs (Some (JsObject.delete name cs)) w) ;;
       write_hasChanged true).

(* Set package version in specified catalog *)
Definition setCatalogVersion (catalogName packageName version : string) : M unit :=
  createCatalog catalogName ;;
  (if String.eqb catalogName "default" then
     w <- workspaces_ref ;;
     c <- deref (catalog w) ;;
     write_workspaces (set_catalog (Some (JsObject.assign packageName version c)) w)
   else
     w <- workspaces_ref ;;
     let cs := or_else (catalogs w) JsObject.empty in
     write_workspaces (set_catalogs (Some cs) w) ;;
     match or_empty (JsObject.lookup catalogName cs) with
     | JsObject.Own catalogObj =>
         let cs1 := JsObject.set catalogName catalogObj cs in
         (* [catalogObj] and [catalogs[catalogName]] are one object: the
            assignment [catalogObj[packageName] = version] shows in [catalogs]. *)
         let cs2 :=
           JsObject.set catalogName (JsObject.assign packageName version catalogObj) cs1 in
         w <- workspaces_ref ;;
         write_workspaces (set_catalogs (Some cs2) w)
     | _ => write_builtin catalogName packageName
     end) ;;
  write_hasChanged true.

(* Get package version from catalog *)
Definition getCatalogVersion (catalogName packageName : string)
    : M (JsObject.property string) :=
  cfg <- read_config ;;
  if String.eqb catalogName "default" then
    ret (index (workspaces cfg ?. catalog) packageName)
  else
    index_entry (index (workspaces cfg ?. catalogs) catalogName) packageName.

(* Get all catalog names including default *)
Definition listCatalogs : M (list string) :=
  cfg <- read_config ;;
  let catalogs0 : list string := [] in
  let catalogs1 :=
    if truthy_obj (workspaces cfg ?. catalog)
    then catalogs0 ++ ["default"] else catalogs0 in
  let catalogs2 :=
    match workspaces cfg ?. catalogs with
    | Some cs => catalogs1 ++ JsObject.keys cs
    | None => catalogs1
    end in
  ret catalogs2.

(* Get all packages and versions from catalog *)
Definition getCatalogPackages (catalogName : string) : M (JsObject.property Catalog) :=
  cfg <- read_config ;;
  if String.eqb catalogName "default" then
    ret (JsObject.Own (or_else (workspaces cfg ?. catalog) JsObject.empty))
  else
    ret (or_empty (index (workspaces cfg ?. catalogs) catalogName)).

(* Legacy method that uses setCatalogVersion *)
Definition setPackage (catalog packageName version : string) : M unit :=
  setCatalogVersion catalog packageName version.

(** The body of the loop over [Object.keys(config.workspaces.catalogs)]:
    [catalog] is the name of an own property of [catalogs]. *)
Definition push_if_contains (cs : JsObject.t Catalog) (packageName : string)
    (acc : list string) (catalog : string) : list string :=
  if truthy_version (index (JsObject.get catalog cs) packageName)
  then acc ++ [catalog] else acc.

(* Find all catalogs containing package *)
Definition getPackageCatalogs (packageName : string) : M (list string) :=
  cfg <- read_config ;;
  let catalogs0 : list string := [] in
  let catalogs1 :=
    match workspaces cfg ?. catalogs with
    | Some cs => fold_left (push_if_contains cs packageName) (JsObject.keys cs) catalogs0
    | None => catalogs0
    end in
  let catalogs2 :=
    if truthy_version (index (workspaces cfg ?. catalog) packageName)
    then catalogs1 ++ ["default"] else catalogs1 in
  ret catalogs2.

Definition getContent : M BunWorkspaceSchema := read_config.

Definition setContent (newContent : BunWorkspaceSchema) : M unit :=
  write_config newContent ;;
  write_hasChanged true.

Definition toString : M string :=
  cfg <- read_config ;;
  ret (JSON.stringify cfg 2).

Definition hasChanged : M bool := fun e => Normal (hasChanged e, e).

End BunWorkspace.

(** [parseBunWorkspace(content)]: the captured variables of the returned
    object, or the [SyntaxError] of [JSON.parse].  No normalization and no
    validation is done: [config] is the parsed value as it is, and a value
    that is not of the declared type is taken as well. *)
Definition parseBunWorkspace (content : string) : completion Env :=
  match JSON.parse content with
  | Some cfg => Normal (mkEnv cfg false)
  | None => if JSON.well_formed content then Beyond else Throw SyntaxError
  end.

(** ** The scenarios of the test suite *)

(** A JSON text written with apostrophes for its quotation marks. *)
Fixpoint json (s : string) : string :=
  match s with
  | EmptyString => EmptyString
  | String c r => String (if (N_of_ascii c =? 39)%N then JSON.dquote else c) (json r)
  end.

(** Run a computation on the object parsed from [content]. *)
Definition on {A : Type} (content : string) (m : M A) : completion (A * Env) :=
  match parseBunWorkspace content with
  | Normal e => m e
  | Throw err => Throw err
  | Beyond => Beyond
  end.

Definition returns {A : Type} (r : completion (A * Env)) : option A :=
  match r with Normal (a, _) => Some a | _ => None end.

(** ** Documents of the scenarios *)

(** The example of the specification: a default catalog and two named
    ones, all with the package "react". *)
Definition react_text : string :=
  json ("{'workspaces': {'catalog': {'react': '^18.2.0'}, "
        ++ "'catalogs': {'react18': {'react': '^18.2.0'}, "
        ++ "'react19': {'react': '^19.0.0'}}}}").

Definition react_document : BunWorkspaceSchema :=
  mkSchema (Some (mkWorkspaces None
    (Some [("react", "^18.2.0")])
    (Some [("react18", [("react", "^18.2.0")]);
           ("react19", [("react", "^19.0.0")])]))).

(** A package whose version is the empty string. *)
Definition blank_version_text : string :=
  json "{'workspaces': {'catalogs': {'a': {'p': ''}}}}".

(** Documents with a catalog stored under the key "default" of
    [workspaces.catalogs]. *)
Definition default_key_text : string :=
  json "{'workspaces': {'catalog': {}, 'catalogs': {'default': {}}}}".

Definition default_key_package_text : string :=
  json "{'workspaces': {'catalogs': {'default': {'p': '1'}, 'x': {'p': '1'}}}}".

(** The document of most tests. *)
Definition empty_workspaces_text : string := json "{'workspaces':{}}".

(** ** Observations on a document, and sequences of calls *)

(** The default catalog, stored at [workspaces.catalog]. *)
Definition default_catalog (d : BunWorkspaceSchema) : option Catalog :=
  workspaces d ?. catalog.

(** The entry [name] of [workspaces.catalogs]. *)
Definition named_catalog (name : string) (d : BunWorkspaceSchema) : option Catalog :=
  workspaces d ?. catalogs ?. JsObject.get name.

(** The catalog called [name]: the name "default" addresses
    [workspaces.catalog], every other name an entry of [workspaces.catalogs]. *)
Definition the_catalog (name : string) (d : BunWorkspaceSchema) : option Catalog :=
  if String.eqb name "default" then default_catalog d else named_catalog name d.

(** [Object.keys(workspaces.catalogs)], nothing without the container. *)
Definition named_keys (d : BunWorkspaceSchema) : list string :=
  match workspaces d ?. catalogs with
  | Some cs => JsObject.keys cs
  | None => []
  end.

(** The name "default" is not a key inside [workspaces.catalogs]. *)
Definition no_default_key (d : BunWorkspaceSchema) : bool :=
  negb (existsb (String.eqb "default") (named_keys d)).

(** The catalog called [name] exists. *)
Definition catalog_exists (name : string) (d : BunWorkspaceSchema) : bool :=
  truthy_obj (the_catalog name d).

(** The package has a property in the catalog. *)
Definition contains (p : string) (c : option Catalog) : bool :=
  truthy_obj (c ?. JsObject.get p).

(** The package has a truthy value in the catalog: a version of its own
    that is not the empty string or, without a property of its own, a
    member of [Object.prototype] of that name. *)
Definition has_version (p : string) (c : option Catalog) : bool :=
  truthy_version (index c p).

(** [workspaces?.catalogs?.[name]] *)
Definition entry (name : string) (d : BunWorkspaceSchema) : JsObject.property Catalog :=
  index (workspaces d ?. catalogs) name.

(** The name is that of a member of [Object.prototype] and of no catalog
    of the document: looked up in [workspaces.catalogs], it finds the
    member. *)
Definition inherits (name : string) (d : BunWorkspaceSchema) : bool :=
  JsObject.prototype_member name && negb (truthy_obj (the_catalog name d)).

(** The test of [removeCatalog] passes. *)
Definition found (name : string) (d : BunWorkspaceSchema) : bool :=
  if String.eqb name "default" then truthy_obj (default_catalog d)
  else truthy_entry (entry name d).

(** The document with the catalog called [name] set to [c], its parent
    structures created where they are missing. *)
Definition with_catalog (name : string) (c : Catalog) (d : BunWorkspaceSchema)
    : BunWorkspaceSchema :=
  let w := or_else (workspaces d) empty_workspaces in
  mkSchema (Some
    (if String.eqb name "default" then set_catalog (Some c) w
     else set_catalogs
            (Some (JsObject.set name c (or_else (catalogs w) JsObject.empty))) w)).

(** The document with the key of the catalog called [name] deleted. *)
Definition without_catalog (name : string) (d : BunWorkspaceSchema)
    : BunWorkspaceSchema :=
  match workspaces d with
  | Some w =>
      mkSchema (Some
        (if String.eqb name "default" then set_catalog None w
         else set_catalogs (option_map (JsObject.delete name) (catalogs w)) w))
  | None => d
  end.

(** The names [listCatalogs] is to return: "default" when the default
    catalog exists, then the keys of [workspaces.catalogs]. *)
Definition catalog_names (d : BunWorkspaceSchema) : list string :=
  (if truthy_obj (default_catalog d) then ["default"] else []) ++ named_keys d.

(** The names [getPackageCatalogs] returns: the keys of
    [workspaces.catalogs] under which the package has a truthy value, then
    "default" when it has one in the default catalog. *)
Definition package_catalogs (p : string) (d : BunWorkspaceSchema) : list string :=
  filter (fun c => has_version p (named_catalog c d)) (named_keys d)
  ++ (if has_version p (default_catalog d) then ["default"] else []).

(** A call of a method of the returned object. *)
Inductive call : Type :=
| GetContent
| SetContent (content : BunWorkspaceSchema)
| HasChanged
| SetPackage (catalog packageName version : string)
| GetPackageCatalogs (packageName : string)
| ToString
| CreateCatalog (name : string)
| RemoveCatalog (name : string)
| SetCatalogVersion (catalogName packageName version : string)
| GetCatalogVersion (catalogName packageName : string)
| ListCatalogs
| GetCatalogPackages (catalogName : string).

Definition discard {A : Type} (m : M A) : M unit := _ <- m ;; ret tt.

Definition perform (c : call) : M unit :=
  match c with
  | GetContent => discard BunWorkspace.getContent
  | SetContent d => BunWorkspace.setContent d
  | HasChanged => discard BunWorkspace.hasChanged
  | SetPackage c p v => BunWorkspace.setPackage c p v
  | GetPackageCatalogs p => discard (BunWorkspace.getPackageCatalogs p)
  | ToString => discard BunWorkspace.toString
  | CreateCatalog n => BunWorkspace.createCatalog n
  | RemoveCatalog n => BunWorkspace.removeCatalog n
  | SetCatalogVersion c p v => BunWorkspace.setCatalogVersion c p v
  | GetCatalogVersion c p => discard (BunWorkspace.getCatalogVersion c p)
  | ListCatalogs => discard BunWorkspace.listCatalogs
  | GetCatalogPackages c => discard (BunWorkspace.getCatalogPackages c)
  end.

Fixpoint run (cs : list call) : M unit :=
  match cs with
  | [] => ret tt
  | c :: r => perform c ;; run r
  end.

Definition is_setContent (c : call) : bool :=
  match c with SetContent _ => true | _ => false end.

(** The objects a call passes in are well formed. *)
Definition call_wf (c : call) : bool :=
  match c with SetContent d => wf_schema d | _ => true end.

(** The document with [workspaces] and [workspaces.catalogs] created
    where they are missing. *)
Definition with_containers (d : BunWorkspaceSchema) : BunWorkspaceSchema :=
  let w := or_else (workspaces d) empty_workspaces in
  mkSchema (Some (set_catalogs (Some (or_else (catalogs w) JsObject.empty)) w)).

(** The captured variables after [createCatalog(name)]. *)
Definition created (name : string) (e : Env) : Env :=
  match the_catalog name (config e) with
  | Some _ => e
  | None =>
      if JsObject.prototype_member name
      then mkEnv (with_containers (config e))
             (hasChanged e || negb (truthy_obj (workspaces (config e))))
      else mkEnv (with_catalog name JsObject.empty (config e)) true
  end.

(** The captured variables after [removeCatalog(name)]. *)
Definition removed (name : string) (e : Env) : Env :=
  if found name (config e) then mkEnv (without_catalog name (config e)) true else e.

(** The completion of [setCatalogVersion(c, p, v)]. *)
Definition written (c p v : string) (e : Env) : completion (unit * Env) :=
  if inherits c (config e) then write_builtin c p e
  else
    Normal (tt, mkEnv (with_catalog c
                         (JsObject.assign p v
                            (or_else (the_catalog c (config e)) JsObject.empty))
                         (config e)) true).

(** [getCatalogVersion(c, p)] reads a property of a built-in object. *)
Definition reads_builtin (c : string) (d : BunWorkspaceSchema) : bool :=
  negb (String.eqb c "default")
  && match entry c d with JsObject.Inherited => true | _ => false end.

(** The completion of a call. *)
Definition after (c : call) (e : Env) : completion (unit * Env) :=
  match c with
  | SetContent d => Normal (tt, mkEnv d true)
  | SetPackage c p v | SetCatalogVersion c p v => written c p v e
  | CreateCatalog n => Normal (tt, created n e)
  | RemoveCatalog n => Normal (tt, removed n e)
  | GetCatalogVersion c p => if reads_builtin c (config e) then Beyond else Normal (tt, e)
  | _ => Normal (tt, e)
  end.

(** [createCatalog] is not called with the name of a member of
    [Object.prototype]. *)
Definition creates_plain (c : call) : bool :=
  match c with
  | CreateCatalog n => negb (JsObject.prototype_member n)
  | _ => true
  end.

(** The captured variables of an object that [parseBunWorkspace] returned
    and that calls other than [setContent] have changed since.  The
    document is then made of the objects [JSON.parse] and the closures
    created, each of them in one place of it. *)
Definition grown (e : Env) : Prop :=
  exists content cs e0,
    parseBunWorkspace content = Normal e0 /\
    forallb (fun c => negb (is_setContent c)) cs = true /\
    run cs e0 = Normal (tt, e).

(** No catalog name of the call is the name of a member of
    [Object.prototype]. *)
Definition call_plain (c : call) : bool :=
  match c with
  | SetPackage c _ _ | SetCatalogVersion c _ _ | GetCatalogVersion c _ =>
      negb (JsObject.prototype_member c)
  | _ => true
  end.

(** ** The documented variant of [parseBunWorkspace]

    The second source of the closures, with a documented interface: its
    object has [setPackage] as the one writer and no [setCatalogVersion],
    [removeCatalog] tests the name and the default catalog in one
    condition, and [getPackageCatalogs] loops over [Object.entries]. *)

Module BunWorkspaceDoc.

(* Ensure the workspaces object exists in the configuration.
   Creates it if missing and marks the configuration as changed. *)
Definition ensureWorkspaces : M unit :=
  cfg <- read_config ;;
  when (negb (truthy_obj (workspaces cfg)))
    (write_workspaces empty_workspaces ;;
     write_hasChanged true).

(* Set a package version in the specified catalog.
   Creates the catalog structure if it doesn't exist. *)
Definition setPackage (catalogName packageName version : string) : M unit :=
  ensureWorkspaces ;;
  (if String.eqb catalogName "default" then
     w <- workspaces_ref ;;
     write_workspaces (set_catalog (Some (or_else (catalog w) JsObject.empty)) w) ;;
     w <- workspaces_ref ;;
     c <- deref (catalog w) ;;
     write_workspaces (set_catalog (Some (JsObject.assign packageName version c)) w)
   else
     w <- workspaces_ref ;;
     write_workspaces (set_catalogs (Some (or_else (catalogs w) JsObject.empty)) w) ;;
     w <- workspaces_ref ;;
     cs <- deref (catalogs w) ;;
     match or_empty (JsObject.lookup catalogName cs) with
     | JsObject.Own c0 =>
         write_workspaces (set_catalogs (Some (JsObject.set catalogName c0 cs)) w) ;;
         w <- workspaces_ref ;;
         cs <- deref (catalogs w) ;;
         c <- deref (JsObject.get catalogName cs) ;;
         write_workspaces
           (set_catalogs
              (Some (JsObject.set catalogName (JsObject.assign packageName version c) cs))
              w)
     | _ => write_builtin catalogName packageName
     end) ;;
  write_hasChanged true.

(* Create a new empty catalog if it doesn't already exist.
   Marks configuration as changed only if a new catalog was created. *)
Definition createCatalog (name : string) : M unit :=
  ensureWorkspaces ;;
  if String.eqb name "default" then
    w <- workspaces_ref ;;
    when (negb (truthy_obj (catalog w)))
      (write_workspaces (set_catalog (Some JsObject.empty) w) ;;
       write_hasChanged true)
  else
    w <- workspaces_ref ;;
    write_workspaces (set_catalogs (Some (or_else (catalogs w) JsObject.empty)) w) ;;
    w <- workspaces_ref ;;
    cs <- deref (catalogs w) ;;
    when (negb (truthy_entry (JsObject.lookup name cs)))
      (write_workspaces (set_catalogs (Some (JsObject.set name JsObject.empty cs)) w) ;;
       write_hasChanged true).

(* Remove an entire catalog and all its package definitions.
   Only removes if the catalog exists, marks as changed if removed. *)
Definition removeCatalog (name : string) : M unit :=
  cfg <- read_config ;;
  if String.eqb name "default" && truthy_obj (workspaces cfg ?. catalog) then
    w <- workspaces_ref ;;
    write_workspaces (set_catalog None w) ;;
    write_hasChanged true
  else
    when (truthy_entry (index (workspaces cfg ?. catalogs) name))
      (w <- workspaces_ref ;;
       cs <- deref (catalogs w) ;;
       write_workspaces (set_catalogs (Some (JsObject.delete name cs)) w) ;;
       write_hasChanged true).

(* Retrieve the version of a package from a specific catalog. *)
Definition getCatalogVersion (catalogName packageName : string)
    : M (JsObject.property string) :=
  cfg <- read_config ;;
  if String.eqb catalogName "default"
  then ret (index (workspaces cfg ?. catalog) packageName)
  else index_entry (index (workspaces cfg ?. catalogs) catalogName) packageName.

(* Get all available catalog names in the workspace. *)
Definition listCatalogs : M (list string) :=
  cfg <- read_config ;;
  let catalogs0 : list string := [] in
  let catalogs1 :=
    if truthy_obj (workspaces cfg ?. catalog)
    then catalogs0 ++ ["default"] else catalogs0 in
  let catalogs2 :=
    match workspaces cfg ?. catalogs with
    | Some cs => catalogs1 ++ JsObject.keys cs
    | None => catalogs1
    end in
  ret catalogs2.

(* Get all packages and their versions from a specific catalog.
   Returns empty object if catalog doesn't exist. *)
Definition getCatalogPackages (catalogName : string) : M (JsObject.property Catalog) :=
  cfg <- read_config ;;
  ret (if String.eqb catalogName "default"
       then JsObject.Own (or_else (workspaces cfg ?. catalog) JsObject.empty)
       else or_empty (index (workspaces cfg ?. catalogs) catalogName)).

(** The body of the loop over [Object.entries(config.workspaces.catalogs)]. *)
Definition push_entry (packageName : string) (acc : list string)
    (entry : string * Catalog) : list string :=
  if truthy_version (JsObject.lookup packageName (snd entry))
  then acc ++ [fst entry] else acc.

(* Find all catalogs that contain a specific package.
   Searches both named catalogs and the default catalog. *)
Definition getPackageCatalogs (packageName : string) : M (list string) :=
  cfg <- read_config ;;
  let catalogs0 : list string := [] in
  let catalogs1 :=
    (* Search named catalogs *)
    match workspaces cfg ?. catalogs with
    | Some cs => fold_left (push_entry packageName) cs catalogs0
    | None => catalogs0
    end in
  let catalogs2 :=
    (* Check default catalog *)
    if truthy_version (index (workspaces cfg ?. catalog) packageName)
    then catalogs1 ++ ["default"] else catalogs1 in
  ret catalogs2.

End BunWorkspaceDoc.

(** ** A document with one object in two places

    [setContent] keeps the object it is given.  An empty object has the
    types of both [catalog] and [catalogs], so a caller can pass
    [{workspaces: {catalog: s, catalogs: s}}] with one object [s] behind the
    two members.  [Shared] embeds [createCatalog], [setCatalogVersion] and
    [listCatalogs] of [src/index.ts] for closures that hold such a
    document: the state is the properties of [s], each a version or a
    catalog, and [hasChanged]. *)

Module Shared.

Inductive value : Type :=
| Version (v : string)
| Packages (c : Catalog).

Record Env : Type := mkEnv {
  both : JsObject.t value;
  hasChanged : bool
}.

Definition truthy (x : JsObject.property value) : bool :=
  match x with
  | JsObject.Own (Version v) => negb (String.eqb v EmptyString)
  | JsObject.Own (Packages _) | JsObject.Inherited => true
  | JsObject.Absent => false
  end.

(* Create new catalog (default or named) *)
Definition createCatalog (name : string) (e : Env) : Env :=
  (* [config.workspaces], [config.workspaces.catalog] and
     [config.workspaces.catalogs] exist *)
  if String.eqb name "default" then e
  else if negb (truthy (JsObject.lookup name (both e)))
       then mkEnv (JsObject.set name (Packages JsObject.empty) (both e)) true
       else e.

(* Set package version in specified catalog *)
Definition setCatalogVersion (catalogName packageName version : string) (e : Env)
    : completion Env :=
  let e1 := createCatalog catalogName e in
  if String.eqb catalogName "default" then
    Normal (mkEnv (JsObject.assign packageName (Version version) (both e1)) true)
  else
    match JsObject.lookup catalogName (both e1) with
    | JsObject.Own (Packages catalogObj) =>
        Normal (mkEnv (JsObject.set catalogName
                         (Packages (JsObject.assign packageName version catalogObj))
                         (both e1)) true)
    | JsObject.Absent =>
        Normal (mkEnv (JsObject.set catalogName
                         (Packages (JsObject.assign packageName version JsObject.empty))
                         (both e1)) true)
    | JsObject.Own (Version _) =>
        (* [catalogObj] is a string: in strict code the assignment of a
           property to it throws, unless it goes to the accessor *)
        if String.eqb packageName "__proto__" then Beyond else Throw TypeError
    | JsObject.Inherited => builtin_write catalogName packageName
    end.

(* Legacy method that uses setCatalogVersion *)
Definition setPackage (catalog packageName version : string) (e : Env)
    : completion Env :=
  setCatalogVersion catalog packageName version e.

(* Get all catalog names including default *)
Definition listCatalogs (e : Env) : list string :=
  ["default"] ++ JsObject.keys (both e).

End Shared.

(** ** Notions for the round trip of [JSON] *)

(** Texts made of white space, and texts that start with another
    character. *)
Definition blank (t : JSON.text) : Prop := forallb JSON.is_ws t = true.
Definition solid (t : JSON.text) : Prop := forall r, JSON.ws (t ++ r) = t ++ r.

(** A member to be read back: its name, the text of its value, and what
    reading it does to the value under construction. *)
Definition item (R : Type) : Type := string * JSON.text * (R -> R).

Definition item_text {R : Type} (gap : JSON.text) (it : item R) : JSON.text :=
  JSON.member gap (fst (fst it)) (snd (fst it)).

Definition read_items {R : Type} (items : list (item R)) (acc : R) : R :=
  fold_left (fun a it => snd it a) items acc.

(** [field] reads the value of the member back. *)
Definition reads {R : Type} (field : string -> R -> JSON.parser R)
    (it : item R) : Prop :=
  solid (snd (fst it)) /\
  forall acc r, field (fst (fst it)) acc (snd (fst it) ++ r) = Some (snd it acc, r).

(** The member of an optional value. *)
Definition opt_item {A R : Type} (k : string) (tv : A -> JSON.text)
    (upd : A -> R -> R) (o : option A) : list (item R) :=
  match o with Some a => [(k, tv a, upd a)] | None => [] end.

(** ** Facts about objects *)

(** Array indices are enumerated first, in ascending order. *)
Example keys_order :
  JsObject.keys (JsObject.of_list [("b", 1); ("10", 2); ("a", 3); ("2", 4); ("b", 5); ("01", 6)])
  = ["2"; "10"; "b"; "a"; "01"].
Proof. reflexivity. Qed.


Section ObjectFacts.
Context {V : Type}.
Implicit Types (o : JsObject.t V) (k : string) (v : V).

Lemma get_replace_same k v o :
  JsObject.has k o = true -> JsObject.get k (JsObject.replace k v o) = Some v.
Proof.
  unfold JsObject.has. induction o as [|[k' v'] r IH]; simpl; [discriminate|].
  destruct (String.eqb k k') eqn:E; simpl.
  - now rewrite String.eqb_refl.
  - rewrite E. exact IH.
Qed.

Lemma get_replace_other k k' v o :
  k' <> k -> JsObject.get k' (JsObject.replace k v o) = JsObject.get k' o.
Proof.
  intros N. induction o as [|[k0 v0] r IH]; simpl; [reflexivity|].
  destruct (String.eqb k k0) eqn:E; simpl.
  - apply String.eqb_eq in E. subst k0.
    apply String.eqb_neq in N. now rewrite N.
  - now rewrite IH.
Qed.

Lemma get_insert_index_same n k v o :
  JsObject.get k o = None -> JsObject.get k (JsObject.insert_index n k v o) = Some v.
Proof.
  induction o as [|[k' v'] r IH]; simpl; intros H.
  - now rewrite String.eqb_refl.
  - destruct (String.eqb k k') eqn:E; [discriminate|].
    destruct (JsObject.array_index k') as [m|]; simpl.
    + destruct (n <? m)%N; simpl.
      * now rewrite String.eqb_refl.
      * rewrite E. now apply IH.
    + now rewrite String.eqb_refl.
Qed.

Lemma get_insert_index_other n k k' v o :
  k' <> k -> JsObject.get k' (JsObject.insert_index n k v o) = JsObject.get k' o.
Proof.
  intros N. apply String.eqb_neq in N.
  induction o as [|[k0 v0] r IH]; simpl.
  - now rewrite N.
  - destruct (JsObject.array_index k0) as [m|]; simpl.
    + destruct (n <? m)%N; simpl.
      * now rewrite N.
      * now rewrite IH.
    + now rewrite N.
Qed.

Lemma get_app k o1 o2 :
  JsObject.get k (o1 ++ o2) =
  match JsObject.get k o1 with Some v => Some v | None => JsObject.get k o2 end.
Proof.
  induction o1 as [|[k' v'] r IH]; simpl; [reflexivity|].
  now destruct (String.eqb k k').
Qed.

Lemma get_create_same k v o :
  JsObject.get k o = None -> JsObject.get k (JsObject.create k v o) = Some v.
Proof.
  intros H. unfold JsObject.create.
  destruct (JsObject.array_index k).
  - now apply get_insert_index_same.
  - rewrite get_app, H. simpl. now rewrite String.eqb_refl.
Qed.

Lemma get_create_other k k' v o :
  k' <> k -> JsObject.get k' (JsObject.create k v o) = JsObject.get k' o.
Proof.
  intros N. unfold JsObject.create.
  destruct (JsObject.array_index k).
  - now apply get_insert_index_other.
  - rewrite get_app. simpl. apply String.eqb_neq in N. rewrite N.
    now destruct (JsObject.get k' o).
Qed.

(** Reading back a property that was just assigned. *)
Lemma get_set_same k v o : JsObject.get k (JsObject.set k v o) = Some v.
Proof.
  unfold JsObject.set. destruct (JsObject.has k o) eqn:H.
  - now apply get_replace_same.
  - apply get_create_same. unfold JsObject.has in H.
    now destruct (JsObject.get k o).
Qed.

Lemma get_set_other k k' v o :
  k' <> k -> JsObject.get k' (JsObject.set k v o) = JsObject.get k' o.
Proof.
  intros N. unfold JsObject.set. destruct (JsObject.has k o).
  - now apply get_replace_other.
  - now apply get_create_other.
Qed.

Lemma get_delete_same k o : JsObject.get k (JsObject.delete k o) = None.
Proof.
  unfold JsObject.delete.
  induction o as [|[k' v'] r IH]; simpl; [reflexivity|].
  destruct (String.eqb k k') eqn:E; simpl; [exact IH|].
  now rewrite E.
Qed.


Lemma get_none_iff k o : JsObject.get k o = None <-> ~ In k (JsObject.keys o).
Proof.
  induction o as [|[k' v'] r IH]; simpl.
  - split; [intros _ []|reflexivity].
  - destruct (String.eqb_spec k k') as [->|N].
    + split; [discriminate|]. intros H. exfalso. apply H. now left.
    + rewrite IH. split.
      * intros H [E|I]; [now apply N|now apply H].
      * intros H I. apply H. now right.
Qed.

Lemma get_some_in k v o : JsObject.get k o = Some v -> In k (JsObject.keys o).
Proof.
  intros H. destruct (in_dec string_dec k (JsObject.keys o)) as [I|I]; [exact I|].
  apply get_none_iff in I. congruence.
Qed.

Lemma keys_replace k v o :
  JsObject.has k o = true -> JsObject.keys (JsObject.replace k v o) = JsObject.keys o.
Proof.
  unfold JsObject.has.
  induction o as [|[k' v'] r IH]; simpl; [reflexivity|].
  destruct (String.eqb_spec k k') as [->|N]; simpl; [reflexivity|].
  intros H. now rewrite IH.
Qed.

(** The names after an assignment: the old ones and the assigned one. *)
Lemma in_keys_set k k' v o :
  In k' (JsObject.keys (JsObject.set k v o)) <-> k' = k \/ In k' (JsObject.keys o).
Proof.
  destruct (string_dec k' k) as [->|N].
  - split; [now left|]. intros _.
    apply (get_some_in k v). apply get_set_same.
  - split.
    + intros I. right.
      destruct (in_dec string_dec k' (JsObject.keys o)) as [J|J]; [exact J|].
      apply get_none_iff in J. rewrite <- (get_set_other k k' v o N) in J.
      apply get_none_iff in J. contradiction.
    + intros [E|I]; [contradiction|].
      destruct (in_dec string_dec k' (JsObject.keys (JsObject.set k v o))) as [J|J];
        [exact J|].
      apply get_none_iff in J. rewrite (get_set_other k k' v o N) in J.
      apply get_none_iff in J. contradiction.
Qed.

Lemma in_keys_delete k k' o :
  In k' (JsObject.keys (JsObject.delete k o)) -> In k' (JsObject.keys o).
Proof.
  unfold JsObject.delete, JsObject.keys. rewrite !in_map_iff.
  intros [x [E I]]. exists x. split; [exact E|].
  now apply filter_In in I.
Qed.

Lemma delete_absent k o : JsObject.get k o = None -> JsObject.delete k o = o.
Proof.
  unfold JsObject.delete.
  induction o as [|[k' v'] r IH]; simpl; [reflexivity|].
  destruct (String.eqb k k'); [discriminate|]. simpl.
  intros H. now rewrite IH.
Qed.

End ObjectFacts.

(** ** Objects the runtime can build stay so *)

Lemma precedes_trans k1 k2 k3 :
  JsObject.precedes k1 k2 = true -> JsObject.precedes k2 k3 = true ->
  JsObject.precedes k1 k3 = true.
Proof.
  unfold JsObject.precedes.
  destruct (JsObject.array_index k1), (JsObject.array_index k2),
    (JsObject.array_index k3); try discriminate; try reflexivity.
  rewrite !N.leb_le. lia.
Qed.

Lemma nodup_keys_iff l : JsObject.nodup_keys l = true <-> NoDup l.
Proof.
  induction l as [|k r IH]; simpl.
  - split; [constructor|reflexivity].
  - rewrite andb_true_iff, negb_true_iff, IH. split.
    + intros [H1 H2]. constructor; [|exact H2].
      intros I. assert (E : existsb (String.eqb k) r = true).
      { apply existsb_exists. exists k. split; [exact I|apply String.eqb_refl]. }
      congruence.
    + intros H. inversion H as [|? ? H1 H2]; subst. split; [|exact H2].
      destruct (existsb (String.eqb k) r) eqn:E; [|reflexivity].
      apply existsb_exists in E. destruct E as [x [I E]].
      apply String.eqb_eq in E. subst x. contradiction.
Qed.

Lemma ordered_keys_app l k :
  JsObject.ordered_keys (l ++ [k]) = true <->
  JsObject.ordered_keys l = true /\ (forall x, In x l -> JsObject.precedes x k = true).
Proof.
  induction l as [|a r IH]; simpl.
  - split; [intros _; split; [reflexivity|intros x []]|reflexivity].
  - rewrite !andb_true_iff, forallb_app, andb_true_iff, IH. simpl.
    rewrite andb_true_r. split.
    + intros [[H1 H2] [H3 H4]]. repeat split; try assumption.
      intros x [<-|I]; [exact H2|now apply H4].
    + intros [[H1 H2] H3]. repeat split; try assumption.
      * apply H3. now left.
      * intros x I. apply H3. now right.
Qed.

Section WfFacts.
Context {V : Type}.
Implicit Types (o : JsObject.t V) (k : string) (v : V).

Lemma keys_insert_index_Add n k v o :
  Add k (JsObject.keys o) (JsObject.keys (JsObject.insert_index n k v o)).
Proof.
  induction o as [|[k' v'] r IH]; simpl.
  - constructor.
  - destruct (JsObject.array_index k') as [m|]; [destruct (n <? m)%N|]; simpl;
      try constructor. exact IH.
Qed.

Lemma keys_create_Add k v o :
  Add k (JsObject.keys o) (JsObject.keys (JsObject.create k v o)).
Proof.
  unfold JsObject.create. destruct (JsObject.array_index k).
  - apply keys_insert_index_Add.
  - unfold JsObject.keys. rewrite map_app. simpl.
    rewrite <- (app_nil_r (map fst o)) at 1. apply Add_app.
Qed.

Lemma ordered_insert_index n k v o :
  JsObject.array_index k = Some n ->
  JsObject.ordered_keys (JsObject.keys o) = true ->
  JsObject.ordered_keys (JsObject.keys (JsObject.insert_index n k v o)) = true.
Proof.
  intros Hk. induction o as [|[k' v'] r IH]; simpl; [reflexivity|].
  rewrite andb_true_iff. intros [H1 H2].
  assert (Hall : JsObject.precedes k k' = true ->
                 forallb (JsObject.precedes k) (JsObject.keys r) = true).
  { intros P. apply forallb_forall. intros x I.
    apply (precedes_trans k k' x P).
    rewrite forallb_forall in H1. now apply H1. }
  destruct (JsObject.array_index k') as [m|] eqn:Hk'.
  - destruct (n <? m)%N eqn:L; simpl.
    + assert (P : JsObject.precedes k k' = true).
      { unfold JsObject.precedes. rewrite Hk, Hk'.
        apply N.ltb_lt in L. apply N.leb_le. lia. }
      rewrite P, (Hall P), H1, H2. reflexivity.
    + rewrite (IH H2), andb_true_r. apply forallb_forall. intros x I.
      apply (Add_in (keys_insert_index_Add n k v r)) in I.
      destruct I as [<-|I].
      * unfold JsObject.precedes. rewrite Hk, Hk'.
        apply N.ltb_ge in L. now apply N.leb_le.
      * rewrite forallb_forall in H1. now apply H1.
  - simpl.
    assert (P : JsObject.precedes k k' = true).
    { unfold JsObject.precedes. now rewrite Hk, Hk'. }
    rewrite P, (Hall P), H1, H2. reflexivity.
Qed.

Lemma wf_create k v o :
  JsObject.get k o = None -> JsObject.wf o = true ->
  JsObject.wf (JsObject.create k v o) = true.
Proof.
  unfold JsObject.wf. rewrite !andb_true_iff, !nodup_keys_iff.
  intros G [H1 H2]. split.
  - apply (NoDup_Add (keys_create_Add k v o)). split; [exact H1|].
    now apply get_none_iff.
  - unfold JsObject.create. destruct (JsObject.array_index k) as [n|] eqn:Hk.
    + now apply ordered_insert_index.
    + unfold JsObject.keys. rewrite map_app. simpl.
      apply ordered_keys_app. split; [exact H2|].
      intros x _. unfold JsObject.precedes. rewrite Hk.
      now destruct (JsObject.array_index x).
Qed.

(** Assignment keeps an object well formed. *)
Lemma wf_set k v o :
  JsObject.wf o = true -> JsObject.wf (JsObject.set k v o) = true.
Proof.
  intros H. unfold JsObject.set. destruct (JsObject.has k o) eqn:E.
  - unfold JsObject.wf. now rewrite keys_replace.
  - apply wf_create; [|exact H]. unfold JsObject.has in E.
    now destruct (JsObject.get k o).
Qed.




Lemma insert_index_last n k v o :
  (forall x, In x (JsObject.keys o) ->
     exists m, JsObject.array_index x = Some m /\ (m <= n)%N) ->
  JsObject.insert_index n k v o = o ++ [(k, v)].
Proof.
  induction o as [|[k' v'] r IH]; simpl; intros H; [reflexivity|].
  destruct (H k' (or_introl eq_refl)) as [m [E L]]. rewrite E.
  apply N.ltb_ge in L. rewrite L. f_equal. apply IH.
  intros x I. apply H. now right.
Qed.

(** Defining the properties of a well-formed object again, in its own
    enumeration order, builds the same object. *)
Lemma of_list_wf o : JsObject.wf o = true -> JsObject.of_list o = o.
Proof.
  unfold JsObject.of_list.
  induction o as [|[k v] r IH] using rev_ind; [reflexivity|].
  unfold JsObject.wf, JsObject.keys. rewrite map_app. simpl.
  rewrite andb_true_iff, nodup_keys_iff. intros [H1 H2].
  apply ordered_keys_app in H2. destruct H2 as [H2 H3].
  apply NoDup_remove in H1. rewrite app_nil_r in H1. destruct H1 as [H1 H4].
  rewrite fold_left_app. simpl. rewrite IH.
  2:{ unfold JsObject.wf, JsObject.keys.
      apply andb_true_iff. split; [now apply nodup_keys_iff|exact H2]. }
  unfold JsObject.set, JsObject.has.
  apply (proj2 (get_none_iff k r)) in H4. rewrite H4.
  unfold JsObject.create. destruct (JsObject.array_index k) as [n|] eqn:Hk;
    [|reflexivity].
  apply insert_index_last. intros x I. specialize (H3 x I).
  unfold JsObject.precedes in H3. rewrite Hk in H3.
  destruct (JsObject.array_index x) as [m|]; [|discriminate].
  exists m. split; [reflexivity|now apply N.leb_le].
Qed.

Lemma in_set k v o (x : string * V) :
  In x (JsObject.set k v o) -> x = (k, v) \/ In x o.
Proof.
  unfold JsObject.set. destruct (JsObject.has k o).
  - induction o as [|[k' v'] r IH]; simpl; [intros []|].
    destruct (String.eqb k k'); simpl.
    + intros [<-|I]; [now left|right; now right].
    + intros [<-|I]; [right; now left|].
      destruct (IH I) as [E|J]; [now left|right; now right].
  - unfold JsObject.create. destruct (JsObject.array_index k) as [n|].
    + induction o as [|[k' v'] r IH]; simpl.
      * intros [<-|[]]. now left.
      * destruct (JsObject.array_index k') as [m|]; [destruct (n <? m)%N|]; simpl.
        -- intros [<-|I]; [now left|now right].
        -- intros [<-|I]; [right; now left|].
           destruct (IH I) as [E|J]; [now left|right; now right].
        -- intros [<-|I]; [now left|now right].
    + intros I. apply in_app_or in I. destruct I as [I|[<-|[]]];
        [now right|now left].
Qed.

End WfFacts.

(** ** The catalog operations *)

(** Unfold the computations over the captured variables. *)
Ltac js_unfold :=
  unfold BunWorkspace.setPackage, BunWorkspace.setCatalogVersion,
    BunWorkspace.createCatalog, BunWorkspace.removeCatalog,
    BunWorkspace.ensureWorkspaces, BunWorkspace.getCatalogVersion,
    BunWorkspace.getCatalogPackages, BunWorkspace.listCatalogs,
    BunWorkspace.getPackageCatalogs, BunWorkspace.getContent,
    BunWorkspace.setContent, BunWorkspace.toString, BunWorkspace.hasChanged,
    workspaces_ref, write_workspaces, when, deref, index_entry,
    bind, ret, throw, beyond, read_config, write_config, write_hasChanged,
    chain, or_else, truthy_obj, index,
    set_catalog, set_catalogs, set_packages, empty_workspaces;
  simpl.

Ltac env_cases e :=
  let ch := fresh "ch" in
  let pk := fresh "pk" in let cat := fresh "cat" in let cats := fresh "cats" in
  destruct e as [[[[pk [cat|] [cats|]]|]] ch].

Ltac get_cases :=
  repeat (simpl; rewrite ?get_set_same;
          match goal with
          | |- context [match JsObject.get ?k ?o with _ => _ end] =>
              let G := fresh "G" in destruct (JsObject.get k o) eqn:G
          end);
  simpl.

Section SetTwice.
Context {V : Type}.
Implicit Types (o : JsObject.t V) (k : string).

Lemma replace_replace k (x y : V) o :
  JsObject.replace k x (JsObject.replace k y o) = JsObject.replace k x o.
Proof.
  induction o as [|[k' v'] r IH]; simpl; [reflexivity|].
  destruct (String.eqb k k') eqn:E; simpl.
  - now rewrite String.eqb_refl.
  - now rewrite E, IH.
Qed.

Lemma replace_create k (x y : V) o :
  JsObject.get k o = None ->
  JsObject.replace k x (JsObject.create k y o) = JsObject.create k x o.
Proof.
  unfold JsObject.create. destruct (JsObject.array_index k) as [n|].
  - induction o as [|[k' v'] r IH]; simpl; intros G.
    + now rewrite String.eqb_refl.
    + destruct (String.eqb k k') eqn:E; [discriminate|].
      destruct (JsObject.array_index k') as [m|]; [destruct (n <? m)%N|]; simpl;
        rewrite ?String.eqb_refl, ?E; try reflexivity.
      now rewrite IH.
  - induction o as [|[k' v'] r IH]; simpl; intros G.
    + now rewrite String.eqb_refl.
    + destruct (String.eqb k k') eqn:E; [discriminate|]. now rewrite IH.
Qed.

(** A second assignment to a property overwrites the first in place. *)
Lemma set_set k (x y : V) o :
  JsObject.set k x (JsObject.set k y o) = JsObject.set k x o.
Proof.
  assert (H : JsObject.has k (JsObject.set k y o) = true).
  { unfold JsObject.has. now rewrite get_set_same. }
  unfold JsObject.set at 1. rewrite H. unfold JsObject.set.
  destruct (JsObject.has k o) eqn:E.
  - apply replace_replace.
  - apply replace_create. unfold JsObject.has in E.
    now destruct (JsObject.get k o).
Qed.

(** *** Lookups and assignments with [Object.prototype] behind *)




Lemma has_set_same k (v : V) o : JsObject.has k (JsObject.set k v o) = true.
Proof. unfold JsObject.has. now rewrite get_set_same. Qed.

(** An assignment to a name other than "__proto__" is stored. *)
Lemma assign_set k (v : V) o :
  k <> "__proto__" -> JsObject.assign k v o = JsObject.set k v o.
Proof.
  intros N. unfold JsObject.assign. apply String.eqb_neq in N. now rewrite N.
Qed.

Lemma assign_cases k (v : V) o :
  JsObject.assign k v o = JsObject.set k v o \/
  (JsObject.assign k v o = o /\ k = "__proto__" /\ JsObject.get k o = None).
Proof.
  unfold JsObject.assign, JsObject.has.
  destruct (String.eqb_spec k "__proto__") as [->|N]; simpl; [|now left].
  destruct (JsObject.get "__proto__" o); simpl; [now left|now right].
Qed.

Lemma get_assign_other k k' (v : V) o :
  k' <> k -> JsObject.get k' (JsObject.assign k v o) = JsObject.get k' o.
Proof.
  intros N. destruct (assign_cases k v o) as [->|[-> _]]; [|reflexivity].
  now apply get_set_other.
Qed.

(** A second assignment overwrites the first, or goes to the accessor as
    the first did. *)
Lemma assign_assign k (x y : V) o :
  JsObject.assign k x (JsObject.assign k y o) = JsObject.assign k x o.
Proof.
  unfold JsObject.assign.
  destruct (String.eqb k "__proto__" && negb (JsObject.has k o)) eqn:E.
  - now rewrite E.
  - rewrite has_set_same, andb_false_r. rewrite set_set.
    reflexivity.
Qed.


End SetTwice.

(** *** What each method computes *)

Lemma with_containers_twice (d : BunWorkspaceSchema) :
  with_containers (with_containers d) = with_containers d.
Proof. now destruct d as [[[pk cat [cats|]]|]]. Qed.

Lemma the_catalog_with_containers (n : string) (d : BunWorkspaceSchema) :
  the_catalog n (with_containers d) = the_catalog n d.
Proof.
  unfold the_catalog, default_catalog, named_catalog.
  destruct d as [[[pk cat [cats|]]|]]; now destruct (String.eqb n "default").
Qed.

Lemma createCatalog_eq (name : string) (e : Env) :
  BunWorkspace.createCatalog name e = Normal (tt, created name e).
Proof.
  unfold created, the_catalog, default_catalog, named_catalog, with_catalog,
    with_containers.
  env_cases e; js_unfold; destruct (String.eqb_spec name "default") as [->|E];
    try reflexivity; unfold JsObject.lookup; get_cases;
    try destruct (JsObject.prototype_member name); simpl;
    rewrite ?orb_false_r, ?orb_true_r; reflexivity.
Qed.

Lemma removeCatalog_eq (name : string) (e : Env) :
  BunWorkspace.removeCatalog name e = Normal (tt, removed name e).
Proof.
  unfold removed, found, entry, default_catalog, without_catalog.
  env_cases e; js_unfold; destruct (String.eqb name "default") eqn:E;
    try reflexivity;
    destruct (truthy_entry (JsObject.lookup name cats)); reflexivity.
Qed.

Lemma setCatalogVersion_eq (c p v : string) (e : Env) :
  BunWorkspace.setCatalogVersion c p v e = written c p v e.
Proof.
  unfold BunWorkspace.setCatalogVersion, bind. rewrite createCatalog_eq.
  unfold written, created, inherits, the_catalog, default_catalog, named_catalog,
    with_catalog, with_containers.
  destruct (String.eqb_spec c "default") as [->|E].
  - change (JsObject.prototype_member "default") with false.
    env_cases e; js_unfold; reflexivity.
  - env_cases e; js_unfold; unfold JsObject.lookup; get_cases;
      try destruct (JsObject.prototype_member c) eqn:P; simpl;
      unfold JsObject.lookup; rewrite ?G, ?P, ?get_set_same; simpl;
      unfold write_builtin, builtin_write;
      try (destruct (negb (String.eqb c "__proto__")
                     && (String.eqb p "name" || String.eqb p "length"));
           reflexivity);
      repeat match goal with
             | H : Some _ = Some _ |- _ => injection H as <-
             | H : Some _ = None |- _ => discriminate H
             | H : None = Some _ |- _ => discriminate H
             end;
      rewrite ?set_set; reflexivity.
Qed.

Lemma getCatalogVersion_eq (c p : string) (e : Env) :
  BunWorkspace.getCatalogVersion c p e =
  if reads_builtin c (config e) then Beyond
  else Normal (index (the_catalog c (config e)) p, e).
Proof.
  unfold BunWorkspace.getCatalogVersion, reads_builtin, entry, the_catalog,
    default_catalog, named_catalog, bind, read_config, ret.
  destruct (String.eqb c "default"); simpl; [reflexivity|].
  unfold index_entry, index, JsObject.lookup, chain, ret, beyond.
  destruct (workspaces (config e)) as [[pk cat [cats|]]|]; simpl; try reflexivity.
  destruct (JsObject.get c cats); [reflexivity|].
  now destruct (JsObject.prototype_member c).
Qed.

(** Without a member of [Object.prototype] in the way, the lookups are
    those of the catalog called [c]. *)
Lemma reads_builtin_inherits (c : string) (d : BunWorkspaceSchema) :
  inherits c d = false -> reads_builtin c d = false.
Proof.
  unfold inherits, reads_builtin, entry, the_catalog, named_catalog, index,
    JsObject.lookup, chain.
  destruct (String.eqb c "default"); [reflexivity|]. simpl.
  destruct (workspaces d) as [[pk cat [cats|]]|]; simpl; try reflexivity.
  destruct (JsObject.get c cats); [reflexivity|].
  destruct (JsObject.prototype_member c); [discriminate|reflexivity].
Qed.

Lemma getCatalogVersion_plain (c p : string) (e : Env) :
  inherits c (config e) = false ->
  BunWorkspace.getCatalogVersion c p e =
  Normal (index (the_catalog c (config e)) p, e).
Proof.
  intros H. rewrite getCatalogVersion_eq. now rewrite reads_builtin_inherits.
Qed.

Lemma getCatalogPackages_eq (c : string) (e : Env) :
  BunWorkspace.getCatalogPackages c e =
  Normal (if String.eqb c "default"
          then JsObject.Own (or_else (default_catalog (config e)) JsObject.empty)
          else or_empty (entry c (config e)), e).
Proof.
  unfold BunWorkspace.getCatalogPackages, bind, read_config, ret.
  now destruct (String.eqb c "default").
Qed.

Lemma getCatalogPackages_plain (c : string) (e : Env) :
  inherits c (config e) = false ->
  BunWorkspace.getCatalogPackages c e =
  Normal (JsObject.Own (or_else (the_catalog c (config e)) JsObject.empty), e).
Proof.
  rewrite getCatalogPackages_eq.
  unfold inherits, entry, the_catalog, named_catalog, index, JsObject.lookup, chain.
  destruct (String.eqb c "default"); [reflexivity|].
  destruct (workspaces (config e)) as [[pk cat [cats|]]|]; simpl;
    try (destruct (JsObject.prototype_member c); reflexivity).
  destruct (JsObject.get c cats); [reflexivity|].
  destruct (JsObject.prototype_member c); [discriminate|reflexivity].
Qed.

Lemma listCatalogs_eq (e : Env) :
  BunWorkspace.listCatalogs e =
  Normal ((if truthy_obj (default_catalog (config e)) then ["default"] else [])
            ++ named_keys (config e), e).
Proof.
  unfold BunWorkspace.listCatalogs, default_catalog, named_keys, bind,
    read_config, ret.
  destruct (truthy_obj (workspaces (config e) ?. catalog));
    destruct (workspaces (config e) ?. catalogs); simpl;
    now rewrite ?app_nil_r.
Qed.

(** The loop of [getPackageCatalogs] keeps the names that pass its test, in
    the order of the keys. *)
Lemma fold_push_if_contains (cs : JsObject.t Catalog) (p : string)
    (l acc : list string) :
  fold_left (BunWorkspace.push_if_contains cs p) l acc =
  acc ++ filter (fun c => has_version p (JsObject.get c cs)) l.
Proof.
  revert acc. induction l as [|k r IH]; intros acc; simpl.
  - now rewrite app_nil_r.
  - rewrite IH. unfold BunWorkspace.push_if_contains, has_version.
    destruct (truthy_version (index (JsObject.get k cs) p)); simpl;
      [now rewrite <- app_assoc|reflexivity].
Qed.

Lemma getPackageCatalogs_eq (p : string) (e : Env) :
  BunWorkspace.getPackageCatalogs p e =
  Normal (filter (fun c => has_version p (named_catalog c (config e)))
            (named_keys (config e))
          ++ (if has_version p (default_catalog (config e))
              then ["default"] else []), e).
Proof.
  unfold BunWorkspace.getPackageCatalogs, default_catalog, named_catalog,
    named_keys, has_version, bind, read_config, ret.
  destruct (workspaces (config e) ?. catalogs) as [cs|] eqn:C.
  - rewrite fold_push_if_contains. unfold has_version. simpl.
    destruct (truthy_version (index (workspaces (config e) ?. catalog) p));
      now rewrite ?app_nil_r.
  - simpl.
    destruct (truthy_version (index (workspaces (config e) ?. catalog) p));
      reflexivity.
Qed.

(** *** The catalog store behind the two slots *)

Lemma default_catalog_with (n : string) (c : Catalog) (d : BunWorkspaceSchema) :
  default_catalog (with_catalog n c d) =
  if String.eqb n "default" then Some c else default_catalog d.
Proof.
  unfold default_catalog, with_catalog. destruct d as [[w|]];
    destruct (String.eqb n "default"); reflexivity.
Qed.

Lemma named_catalog_with (n k : string) (c : Catalog) (d : BunWorkspaceSchema) :
  named_catalog k (with_catalog n c d) =
  if String.eqb n "default" then named_catalog k d
  else if String.eqb k n then Some c else named_catalog k d.
Proof.
  unfold named_catalog, with_catalog. destruct d as [[[pk cat [cats|]]|]];
    destruct (String.eqb n "default"); simpl; try reflexivity;
    destruct (String.eqb_spec k n) as [->|N];
    now rewrite ?get_set_same, ?get_set_other by assumption.
Qed.

Lemma the_catalog_with_same (n : string) (c : Catalog) (d : BunWorkspaceSchema) :
  the_catalog n (with_catalog n c d) = Some c.
Proof.
  unfold the_catalog. rewrite default_catalog_with, named_catalog_with.
  destruct (String.eqb n "default"); [reflexivity|now rewrite String.eqb_refl].
Qed.

Lemma the_catalog_with_other (n k : string) (c : Catalog) (d : BunWorkspaceSchema) :
  k <> n -> the_catalog k (with_catalog n c d) = the_catalog k d.
Proof.
  intros N. unfold the_catalog. rewrite default_catalog_with, named_catalog_with.
  destruct (String.eqb_spec k "default") as [->|K];
    destruct (String.eqb_spec n "default") as [->|D]; try reflexivity;
    try congruence.
  apply String.eqb_neq in N. now rewrite N.
Qed.

Lemma named_keys_with (n k : string) (c : Catalog) (d : BunWorkspaceSchema) :
  In k (named_keys (with_catalog n c d)) ->
  (k = n /\ n <> "default") \/ In k (named_keys d).
Proof.
  unfold named_keys, with_catalog. destruct d as [[[pk cat [cats|]]|]];
    destruct (String.eqb_spec n "default") as [->|D]; simpl; auto;
    intros I; apply in_keys_set in I; destruct I as [->|I]; auto.
Qed.



Lemma named_keys_without (n k : string) (d : BunWorkspaceSchema) :
  In k (named_keys (without_catalog n d)) -> In k (named_keys d).
Proof.
  unfold named_keys, without_catalog. destruct d as [[[pk cat [cats|]]|]];
    destruct (String.eqb n "default"); simpl; auto.
  apply in_keys_delete.
Qed.

Lemma no_default_key_iff (d : BunWorkspaceSchema) :
  no_default_key d = true <-> ~ In "default" (named_keys d).
Proof.
  unfold no_default_key. rewrite negb_true_iff. split.
  - intros H I. assert (E : existsb (String.eqb "default") (named_keys d) = true).
    { apply existsb_exists. exists "default". split; [exact I|reflexivity]. }
    congruence.
  - intros H. destruct (existsb (String.eqb "default") (named_keys d)) eqn:E;
      [|reflexivity].
    apply existsb_exists in E. destruct E as [x [I E]].
    apply String.eqb_eq in E. subst x. contradiction.
Qed.

(** *** Sequences of calls *)

Lemma perform_eq (c : call) (e : Env) : perform c e = after c e.
Proof.
  destruct c; simpl; unfold discard, bind, BunWorkspace.setPackage;
    rewrite ?setCatalogVersion_eq, ?createCatalog_eq, ?removeCatalog_eq,
      ?getCatalogVersion_eq, ?getCatalogPackages_eq, ?listCatalogs_eq,
      ?getPackageCatalogs_eq;
    try reflexivity.
  now destruct (reads_builtin catalogName (config e)).
Qed.

Lemma run_cons (c : call) (r : list call) (e : Env) :
  run (c :: r) e =
  match after c e with
  | Normal (_, e1) => run r e1
  | Throw err => Throw err
  | Beyond => Beyond
  end.
Proof.
  simpl. unfold bind. rewrite perform_eq.
  now destruct (after c e) as [[[] e1]| |].
Qed.

(** A property of the captured variables that every call keeps holds at
    the end of every sequence of calls that returns. *)
Lemma run_invariant (P : Env -> Prop) (ok : call -> bool) :
  (forall c e e', ok c = true -> P e -> after c e = Normal (tt, e') -> P e') ->
  forall cs e e',
    forallb ok cs = true -> P e -> run cs e = Normal (tt, e') -> P e'.
Proof.
  intros step. induction cs as [|c r IH]; intros e e' F H R.
  - injection R as <-. exact H.
  - simpl in F. apply andb_true_iff in F. destruct F as [F1 F2].
    rewrite run_cons in R.
    destruct (after c e) as [[[] e1]| |] eqn:A; try discriminate.
    apply (IH e1 e' F2); [|exact R]. now apply (step c e e1).
Qed.

Lemma written_plain (c p v : string) (e : Env) :
  JsObject.prototype_member c = false ->
  written c p v e =
  Normal (tt, mkEnv (with_catalog c
                       (JsObject.assign p v
                          (or_else (the_catalog c (config e)) JsObject.empty))
                       (config e)) true).
Proof. intros H. unfold written, inherits. now rewrite H. Qed.

Lemma inherits_plain (c : string) (d : BunWorkspaceSchema) :
  JsObject.prototype_member c = false -> inherits c d = false.
Proof. intros H. unfold inherits. now rewrite H. Qed.

(** Calls whose catalog names are not those of members of
    [Object.prototype] return. *)
Lemma after_plain (c : call) (e : Env) :
  call_plain c = true -> exists e', after c e = Normal (tt, e').
Proof.
  destruct c; simpl; intros H; try (now eexists);
    apply negb_true_iff in H.
  - rewrite written_plain by exact H. now eexists.
  - rewrite written_plain by exact H. now eexists.
  - rewrite reads_builtin_inherits by now apply inherits_plain. now eexists.
Qed.

Lemma run_plain (cs : list call) (e : Env) :
  forallb call_plain cs = true -> exists e', run cs e = Normal (tt, e').
Proof.
  revert e. induction cs as [|c r IH]; intros e F.
  - now exists e.
  - simpl in F. apply andb_true_iff in F. destruct F as [F1 F2].
    rewrite run_cons. destruct (after_plain c e F1) as [e1 ->]. now apply IH.
Qed.

Lemma written_normal (c p v : string) (e e' : Env) :
  written c p v e = Normal (tt, e') ->
  inherits c (config e) = false /\
  e' = mkEnv (with_catalog c
                (JsObject.assign p v
                   (or_else (the_catalog c (config e)) JsObject.empty))
                (config e)) true.
Proof.
  unfold written, write_builtin, builtin_write.
  destruct (inherits c (config e)).
  - now destruct (negb (String.eqb c "__proto__")
                  && (String.eqb p "name" || String.eqb p "length")).
  - now intros [= <-].
Qed.


Lemma named_keys_with_containers (d : BunWorkspaceSchema) :
  named_keys (with_containers d) = named_keys d.
Proof. now destruct d as [[[pk cat [cats|]]|]]. Qed.

Lemma after_no_default_key (c : call) (e e' : Env) :
  is_setContent c = false ->
  no_default_key (config e) = true ->
  after c e = Normal (tt, e') -> no_default_key (config e') = true.
Proof.
  rewrite !no_default_key_iff.
  destruct c; simpl; try easy; intros _ H; try (now intros [= <-]).
  - intros A. apply written_normal in A. destruct A as [_ ->]. simpl.
    intros I. apply named_keys_with in I. destruct I as [[E D]|I]; congruence.
  - unfold created. intros [= <-].
    destruct (the_catalog name (config e)); [exact H|].
    destruct (JsObject.prototype_member name); simpl.
    + now rewrite named_keys_with_containers.
    + intros I. apply named_keys_with in I. destruct I as [[E D]|I]; congruence.
  - unfold removed. intros [= <-].
    destruct (found name (config e)); [|exact H]. simpl.
    intros I. now apply named_keys_without in I.
  - intros A. apply written_normal in A. destruct A as [_ ->]. simpl.
    intros I. apply named_keys_with in I. destruct I as [[E D]|I]; congruence.
  - destruct (reads_builtin catalogName (config e)); [discriminate|].
    now intros [= <-].
Qed.


Lemma inherits_with_same (c : string) (o : Catalog) (d : BunWorkspaceSchema) :
  inherits c (with_catalog c o d) = false.
Proof.
  unfold inherits. rewrite the_catalog_with_same. apply andb_false_r.
Qed.

Lemma found_exists (n : string) (d : BunWorkspaceSchema) :
  catalog_exists n d = true -> found n d = true.
Proof.
  unfold catalog_exists, found, the_catalog, named_catalog, entry, index,
    JsObject.lookup.
  destruct (String.eqb n "default"); [easy|].
  destruct (workspaces d ?. catalogs) as [cs|]; simpl; [|discriminate].
  now destruct (JsObject.get n cs).
Qed.


(** ** The claims *)

Example react_text_parses :
  parseBunWorkspace react_text = Normal (mkEnv react_document false).
Proof. reflexivity. Qed.

(** The objects of the examples are objects that [parseBunWorkspace]
    returned. *)
Lemma parsed_grown (content : string) (e : Env) :
  parseBunWorkspace content = Normal e -> grown e.
Proof. intros P. exists content, [], e. now repeat split. Defined.

Lemma react_document_grown : grown (mkEnv react_document false).
Proof. apply (parsed_grown react_text). reflexivity. Defined.

Lemma empty_workspaces_grown : grown (mkEnv (mkSchema (Some empty_workspaces)) false).
Proof. apply (parsed_grown empty_workspaces_text). reflexivity. Defined.














(** C5. [createCatalog] is idempotent: a second call in a row leaves the
    captured variables, and with them [listCatalogs()] and [hasChanged()],
    as the first call left them; and on a catalog that exists, empty or
    not, the call changes neither the document nor the flag. *)
Theorem createCatalog_idempotent (e : Env) (n : string) :
  (exists e1 e2,
      BunWorkspace.createCatalog n e = Normal (tt, e1) /\
      BunWorkspace.createCatalog n e1 = Normal (tt, e2) /\
      returns (BunWorkspace.listCatalogs e2) = returns (BunWorkspace.listCatalogs e1) /\
      returns (BunWorkspace.hasChanged e2) = returns (BunWorkspace.hasChanged e1) /\
      e2 = e1) /\
  (catalog_exists n (config e) = true ->
   BunWorkspace.createCatalog n e = Normal (tt, e)).
Proof.
  assert (H : forall e0, catalog_exists n (config e0) = true ->
                         BunWorkspace.createCatalog n e0 = Normal (tt, e0)).
  { intros e0. rewrite createCatalog_eq. unfold created, catalog_exists.
    now destruct (the_catalog n (config e0)). }
  split; [|apply H].
  rewrite createCatalog_eq. unfold created.
  destruct (the_catalog n (config e)) eqn:T.
  - exists e, e. rewrite createCatalog_eq. unfold created. rewrite T.
    now repeat split.
  - destruct (JsObject.prototype_member n) eqn:P.
    + eexists. eexists. split; [reflexivity|].
      rewrite createCatalog_eq. unfold created. simpl.
      rewrite the_catalog_with_containers, T, P, with_containers_twice.
      replace (truthy_obj (workspaces (with_containers (config e)))) with true
        by now destruct (config e) as [[[pk cat [cats|]]|]].
      simpl. rewrite orb_false_r. now repeat split.
    + eexists. eexists. split; [reflexivity|].
      rewrite H; [now repeat split|].
      unfold catalog_exists. simpl. now rewrite the_catalog_with_same.
Qed.

Lemma createCatalog_idempotent_witness :
  BunWorkspace.createCatalog "react18" (mkEnv react_document false)
  = Normal (tt, mkEnv react_document false).
Proof.
  apply (proj2 (createCatalog_idempotent (mkEnv react_document false) "react18")).
  reflexivity.
Defined.




Lemma wf_catalogs_nodup (d : BunWorkspaceSchema) :
  wf_schema d = true -> NoDup (named_keys d).
Proof.
  unfold wf_schema, wf_workspaces, wf_catalogs, named_keys, JsObject.wf.
  destruct d as [[[pk cat [cats|]]|]]; simpl; try (intros _; constructor).
  rewrite !andb_true_iff. intros [_ [[H _] _]]. now apply nodup_keys_iff.
Qed.




(** C8, as the code has it. The duality of the default catalog is kept
    on an object that [parseBunWorkspace] returned and that calls other
    than [setContent] have changed: where "default" is not a key of
    [workspaces.catalogs] in its document, every sequence of calls other
    than [setContent] that returns ends in such a document; and the
    sequences whose catalog names are not those of members of
    [Object.prototype] return. *)
Theorem default_key_never_introduced (cs : list call) (e : Env) :
  grown e ->
  no_default_key (config e) = true ->
  forallb (fun c => negb (is_setContent c)) cs = true ->
  (forall e', run cs e = Normal (tt, e') -> no_default_key (config e') = true) /\
  (forallb call_plain cs = true -> exists e', run cs e = Normal (tt, e')).
Proof.
  intros _ K F. split; [|apply run_plain].
  intros e'.
  apply (run_invariant (fun e0 => no_default_key (config e0) = true)
           (fun c => negb (is_setContent c))); [|exact F|exact K].
  intros c e0 e1 S. apply after_no_default_key. now apply negb_true_iff.
Qed.

Lemma default_key_never_introduced_witness :
  exists e',
    run [CreateCatalog "default"; SetPackage "default" "react" "^18.3.0";
         SetCatalogVersion "vue" "vue" "^3.0.0"; RemoveCatalog "react18";
         GetPackageCatalogs "react"; CreateCatalog "testing"]
      (mkEnv react_document false) = Normal (tt, e') /\
    no_default_key (config e') = true.
Proof.
  destruct (default_key_never_introduced
              [CreateCatalog "default"; SetPackage "default" "react" "^18.3.0";
               SetCatalogVersion "vue" "vue" "^3.0.0"; RemoveCatalog "react18";
               GetPackageCatalogs "react"; CreateCatalog "testing"]
              (mkEnv react_document false) react_document_grown eq_refl eq_refl)
    as [H1 H2].
  destruct (H2 eq_refl) as [e' R]. exists e'. split; [exact R|]. now apply H1.
Defined.

(** C8 as stated fails for a document passed to [setContent] with one
    object as both [workspaces.catalog] and [workspaces.catalogs]: the
    object is empty, so "default" is no key of [workspaces.catalogs], and
    [setPackage("default", "default", v)] makes it one; [listCatalogs]
    then has the name twice. *)
Lemma default_key_never_introduced_counterexample :
  ~ In "default" (JsObject.keys (Shared.both (Shared.mkEnv JsObject.empty true))) /\
  exists e',
    Shared.setPackage "default" "default" "1.0.0" (Shared.mkEnv JsObject.empty true)
    = Normal e' /\
    In "default" (JsObject.keys (Shared.both e')) /\
    Shared.listCatalogs e' = ["default"; "default"].
Proof.
  split; [intros []|]. eexists. split; [vm_compute; reflexivity|].
  split; [now left|reflexivity].
Qed.




(** ** [JSON.parse] builds well-formed documents *)

Section ParserInvariant.
Context {R : Type} (P : R -> Prop) (field : string -> R -> JSON.parser R).
Hypothesis field_keeps :
  forall k acc s acc' s', P acc -> field k acc s = Some (acc', s') -> P acc'.

Lemma members_keeps fuel :
  forall acc s r s',
    P acc -> JSON.members fuel field acc s = Some (r, s') -> P r.
Proof.
  induction fuel as [|fuel IH]; intros acc s r s' HP; simpl; [discriminate|].
  destruct (JSON.string_lit s) as [[k s1]|]; [|discriminate].
  destruct (JSON.expect JSON.colon (JSON.ws s1)) as [s2|]; [|discriminate].
  destruct (field k acc (JSON.ws s2)) as [[acc' s3]|] eqn:F; [|discriminate].
  apply field_keeps in F; [|exact HP].
  destruct (JSON.ws s3) as [|c s4]; [discriminate|].
  destruct (JSON.code c =? 44)%N; [now apply IH|].
  destruct (JSON.code c =? 125)%N; [|discriminate].
  now intros [= <- _].
Qed.

Lemma object_keeps fuel init s r s' :
  P init -> JSON.object fuel field init s = Some (r, s') -> P r.
Proof.
  intros HP. unfold JSON.object.
  destruct (JSON.expect JSON.lbrace s) as [s1|]; [|discriminate].
  destruct (JSON.expect JSON.rbrace (JSON.ws s1)) as [s2|].
  - now intros [= <- _].
  - now apply members_keeps.
Qed.

End ParserInvariant.

Lemma record_wf {V : Type} (fuel : nat) (pv : JSON.parser V) s o s' :
  JSON.record fuel pv s = Some (o, s') -> JsObject.wf o = true.
Proof.
  unfold JSON.record.
  apply (object_keeps (fun o => JsObject.wf o = true)); [|reflexivity].
  intros k acc s0 acc' s0' W. destruct (pv s0) as [[v r]|]; [|discriminate].
  intros [= <- _]. now apply wf_set.
Qed.

Lemma catalogs_value_wf (fuel : nat) s cs s' :
  JSON.catalogs_value fuel s = Some (cs, s') -> wf_catalogs cs = true.
Proof.
  unfold JSON.catalogs_value, JSON.record.
  apply (object_keeps (fun cs => wf_catalogs cs = true)); [|reflexivity].
  intros k acc s0 acc' s0' W.
  destruct (JSON.catalog_value fuel s0) as [[v r]|] eqn:C; [|discriminate].
  intros [= <- _]. apply record_wf in C.
  unfold wf_catalogs in *. apply andb_true_iff in W. destruct W as [W1 W2].
  apply andb_true_iff. split; [now apply wf_set|].
  apply forallb_forall. intros x I. apply in_set in I.
  destruct I as [->|I]; [exact C|].
  rewrite forallb_forall in W2. now apply W2.
Qed.

Lemma workspaces_value_wf (fuel : nat) s w s' :
  JSON.workspaces_value fuel s = Some (w, s') -> wf_workspaces w = true.
Proof.
  unfold JSON.workspaces_value.
  apply (object_keeps (fun w => wf_workspaces w = true)); [|reflexivity].
  intros k acc s0 acc' s0' W. unfold JSON.workspaces_field.
  unfold wf_workspaces in *. apply andb_true_iff in W. destruct W as [W1 W2].
  destruct (String.eqb k "packages").
  { destruct (JSON.array fuel s0) as [[l r]|]; [|discriminate].
    intros [= <- _]. simpl. now rewrite W1, W2. }
  destruct (String.eqb k "catalog").
  { destruct (JSON.catalog_value fuel s0) as [[c r]|] eqn:C; [|discriminate].
    intros [= <- _]. simpl. apply record_wf in C. now rewrite C, W2. }
  destruct (String.eqb k "catalogs"); [|discriminate].
  destruct (JSON.catalogs_value fuel s0) as [[cs r]|] eqn:C; [|discriminate].
  intros [= <- _]. simpl. apply catalogs_value_wf in C. now rewrite C, W1.
Qed.

(** The documents [JSON.parse] returns are well formed. *)
Lemma parse_wf (content : string) (d : BunWorkspaceSchema) :
  JSON.parse content = Some d -> wf_schema d = true.
Proof.
  unfold JSON.parse.
  destruct (JSON.schema_value _ _) as [[d0 r]|] eqn:S; [|discriminate].
  destruct (JSON.ws r); [|discriminate]. intros [= <-].
  revert S. unfold JSON.schema_value.
  apply (object_keeps (fun d => wf_schema d = true)); [|reflexivity].
  intros k acc s0 acc' s0' _. unfold JSON.schema_field.
  destruct (String.eqb k "workspaces"); [|discriminate].
  destruct (JSON.workspaces_value _ s0) as [[w r0]|] eqn:W; [|discriminate].
  intros [= <- _]. simpl. now apply workspaces_value_wf in W.
Qed.

(** ** [JSON.parse] reads back what [JSON.stringify] writes *)

(** Reading the escaped form of a character yields the character. *)
Lemma chars_escape (c : ascii) (r : JSON.text) (acc : list ascii) :
  JSON.chars (JSON.escape c ++ r) acc = JSON.chars r (c :: acc).
Proof.
  destruct c as [[] [] [] [] [] [] [] []]; reflexivity.
Qed.

Lemma chars_quoted (l : list ascii) (r : JSON.text) (acc : list ascii) :
  JSON.chars (flat_map JSON.escape l ++ JSON.dquote :: r) acc =
  Some (string_of_list_ascii (rev acc ++ l), r).
Proof.
  revert acc. induction l as [|c l IH]; intros acc; simpl.
  - now rewrite app_nil_r.
  - rewrite <- app_assoc, chars_escape, IH. simpl.
    now rewrite <- app_assoc.
Qed.

(** A string literal is read back as the string it quotes. *)
Lemma string_lit_quote (s : string) (r : JSON.text) :
  JSON.string_lit (JSON.quote s ++ r) = Some (s, r).
Proof.
  unfold JSON.string_lit, JSON.quote. simpl.
  rewrite <- app_assoc. simpl. rewrite chars_quoted. simpl.
  now rewrite string_of_list_ascii_of_string.
Qed.

Lemma blank_app t1 t2 : blank t1 -> blank t2 -> blank (t1 ++ t2).
Proof.
  unfold blank. intros H1 H2. now rewrite forallb_app, H1, H2.
Qed.

Lemma blank_gap_of n : blank (JSON.gap_of n).
Proof.
  unfold blank, JSON.gap_of. induction (Nat.min n 10); simpl; auto.
Qed.

Lemma ws_blank t r : blank t -> JSON.ws (t ++ r) = JSON.ws r.
Proof.
  unfold blank. induction t as [|c t IH]; simpl; [reflexivity|].
  rewrite andb_true_iff. intros [H1 H2]. rewrite H1. now apply IH.
Qed.

Lemma ws_line (gap ind r : JSON.text) : blank ind -> JSON.ws (JSON.line gap ind ++ r) = JSON.ws r.
Proof.
  intros B. unfold JSON.line. destruct gap; [reflexivity|].
  simpl. now apply ws_blank.
Qed.

Lemma solid_cons c t : JSON.is_ws c = false -> solid (c :: t).
Proof.
  intros H r. simpl. now rewrite H.
Qed.

Lemma solid_quote s : solid (JSON.quote s).
Proof. now apply solid_cons. Qed.

Lemma solid_app t1 t2 : solid t1 -> solid (t1 ++ t2).
Proof.
  intros H r. rewrite <- app_assoc. apply H.
Qed.

Lemma solid_block opn cls gap ind ms :
  JSON.is_ws opn = false -> solid (JSON.block opn cls gap ind ms).
Proof.
  intros H. unfold JSON.block. destruct ms; now apply solid_cons.
Qed.

Lemma solid_member gap k v : solid (JSON.member gap k v).
Proof. apply solid_app, solid_quote. Qed.

Lemma ws_solid t r : solid t -> JSON.ws (t ++ r) = t ++ r.
Proof. intros H. apply H. Qed.

(** The white space after the colon of a member. *)
Lemma ws_after_colon (gap v r : JSON.text) :
  solid v ->
  JSON.ws (match gap with [] => [] | _ => [JSON.space_char] end ++ v ++ r) = v ++ r.
Proof.
  intros H. destruct gap; simpl; apply H.
Qed.

Section MembersRoundTrip.
Context {R : Type} (gap : JSON.text) (field : string -> R -> JSON.parser R).

Lemma members_S fuel acc s :
  JSON.members (S fuel) field acc s =
  match JSON.string_lit s with
  | Some (k, s1) =>
      match JSON.expect JSON.colon (JSON.ws s1) with
      | Some s2 =>
          match field k acc (JSON.ws s2) with
          | Some (acc', s3) =>
              match JSON.ws s3 with
              | c :: s4 =>
                  if (JSON.code c =? 44)%N
                  then JSON.members fuel field acc' (JSON.ws s4)
                  else if (JSON.code c =? 125)%N then Some (acc', s4) else None
              | [] => None
              end
          | None => None
          end
      | None => None
      end
  | None => None
  end.
Proof. reflexivity. Qed.

Lemma members_step fuel acc (it : item R) tail :
  reads field it ->
  JSON.members (S fuel) field acc (item_text gap it ++ tail) =
  match JSON.ws tail with
  | c :: s4 =>
      if (JSON.code c =? 44)%N
      then JSON.members fuel field (snd it acc) (JSON.ws s4)
      else if (JSON.code c =? 125)%N then Some (snd it acc, s4) else None
  | [] => None
  end.
Proof.
  intros [Hs Hr]. destruct it as [[k v] upd]. cbn [fst snd] in *.
  unfold item_text, JSON.member. cbn [fst snd].
  rewrite members_S, <- app_assoc, string_lit_quote.
  change (JSON.ws ((JSON.colon :: ?x) ++ tail)) with (JSON.colon :: x ++ tail).
  change (JSON.expect JSON.colon (JSON.colon :: ?x)) with (Some x).
  cbv beta iota.
  rewrite <- app_assoc, ws_after_colon by exact Hs.
  now rewrite Hr.
Qed.

Lemma join_cons (sep x : JSON.text) (l : list JSON.text) :
  JSON.join sep (x :: l) = x ++ flat_map (fun y => sep ++ y) l.
Proof. reflexivity. Qed.

Lemma members_items (ind ind0 : JSON.text) (items : list (item R)) :
  blank ind -> blank ind0 ->
  forall (it : item R) fuel acc rest,
    Forall (reads field) (it :: items) ->
    List.length items < fuel ->
    JSON.members fuel field acc
      (JSON.join (JSON.comma :: JSON.line gap ind) (map (item_text gap) (it :: items))
         ++ JSON.line gap ind0 ++ JSON.rbrace :: rest)
    = Some (read_items (it :: items) acc, rest).
Proof.
  intros B B0. induction items as [|it' items IH]; intros it fuel acc rest F L;
    (destruct fuel as [|fuel]; [inversion L|]);
    inversion F as [|? ? F1 F2]; subst;
    cbn [map]; rewrite join_cons, <- app_assoc, members_step by exact F1.
  - cbn [flat_map app]. now rewrite ws_line.
  - cbn [flat_map]. rewrite <- !app_assoc. cbn [app].
    change (JSON.ws (JSON.comma :: ?x)) with (JSON.comma :: x).
    cbv beta iota. change (JSON.code JSON.comma =? 44)%N with true.
    cbv beta iota. rewrite ws_line by exact B.
    rewrite (ws_solid (item_text gap it') _ (solid_member gap _ _)).
    specialize (IH it' fuel (snd it acc) rest F2).
    cbn [map] in IH. rewrite join_cons, <- app_assoc in IH.
    apply IH. simpl in L. lia.
Qed.

(** An object text is read back member by member. *)
Lemma object_items (ind : JSON.text) (items : list (item R)) fuel init rest :
  blank ind -> blank gap ->
  Forall (reads field) items ->
  List.length items < fuel ->
  JSON.object fuel field init
    (JSON.block JSON.lbrace JSON.rbrace gap ind (map (item_text gap) items) ++ rest)
  = Some (read_items items init, rest).
Proof.
  intros B G F L. unfold JSON.object, JSON.block.
  destruct items as [|it items]; [reflexivity|].
  cbn [map]. cbn [app JSON.expect].
  change (JSON.code JSON.lbrace =? JSON.code JSON.lbrace)%N with true.
  cbv beta iota.
  rewrite <- !app_assoc, ws_line by now apply blank_app.
  rewrite join_cons, <- !app_assoc.
  rewrite (ws_solid (item_text gap it) _ (solid_member gap _ _)).
  change ([JSON.rbrace] ++ rest) with (JSON.rbrace :: rest).
  assert (E : forall x, JSON.expect JSON.rbrace (item_text gap it ++ x) = None)
    by reflexivity.
  rewrite E.
  pose proof (members_items (ind ++ gap) ind items (blank_app _ _ B G) B
                it fuel init rest F) as M.
  cbn [map] in M. rewrite join_cons, <- app_assoc in M.
  apply M. simpl in L. lia.
Qed.

End MembersRoundTrip.

Section ArrayRoundTrip.
Context (gap : JSON.text).

Lemma elements_S fuel acc s :
  JSON.elements (S fuel) acc s =
  match JSON.string_lit s with
  | Some (x, s1) =>
      match JSON.ws s1 with
      | c :: s2 =>
          if (JSON.code c =? 44)%N then JSON.elements fuel (x :: acc) (JSON.ws s2)
          else if (JSON.code c =? 93)%N then Some (rev (x :: acc), s2)
          else None
      | [] => None
      end
  | None => None
  end.
Proof. reflexivity. Qed.

Lemma elements_quoted (ind ind0 : JSON.text) (l : list string) :
  blank ind -> blank ind0 ->
  forall (x : string) fuel acc rest,
    List.length l < fuel ->
    JSON.elements fuel acc
      (JSON.join (JSON.comma :: JSON.line gap ind) (map JSON.quote (x :: l))
         ++ JSON.line gap ind0 ++ JSON.rbracket :: rest)
    = Some (rev acc ++ x :: l, rest).
Proof.
  intros B B0. induction l as [|y l IH]; intros x fuel acc rest L;
    (destruct fuel as [|fuel]; [inversion L|]);
    cbn [map]; rewrite join_cons, <- app_assoc, elements_S, string_lit_quote.
  - cbn [flat_map app]. rewrite ws_line by exact B0. reflexivity.
  - cbn [flat_map]. rewrite <- !app_assoc. cbn [app].
    change (JSON.ws (JSON.comma :: ?t)) with (JSON.comma :: t).
    cbv beta iota. change (JSON.code JSON.comma =? 44)%N with true.
    cbv beta iota. rewrite ws_line by exact B.
    rewrite (ws_solid (JSON.quote y) _ (solid_quote y)).
    specialize (IH y fuel (x :: acc) rest).
    cbn [map] in IH. rewrite join_cons, <- app_assoc in IH.
    transitivity (Some (rev (x :: acc) ++ y :: l, rest));
      [apply IH; simpl in L; lia|].
    simpl. now rewrite <- app_assoc.
Qed.

(** An array text is read back as the list it was written from. *)
Lemma array_quoted (ind : JSON.text) (l : list string) fuel rest :
  blank ind -> blank gap ->
  List.length l < fuel ->
  JSON.array fuel (JSON.array_text gap ind l ++ rest) = Some (l, rest).
Proof.
  intros B G L. unfold JSON.array, JSON.array_text, JSON.block.
  destruct l as [|x l]; [reflexivity|].
  cbn [map]. cbn [app JSON.expect].
  change (JSON.code JSON.lbracket =? JSON.code JSON.lbracket)%N with true.
  cbv beta iota.
  rewrite <- !app_assoc, ws_line by now apply blank_app.
  rewrite join_cons, <- !app_assoc.
  rewrite (ws_solid (JSON.quote x) _ (solid_quote x)).
  change ([JSON.rbracket] ++ rest) with (JSON.rbracket :: rest).
  assert (E : forall t, JSON.expect JSON.rbracket (JSON.quote x ++ t) = None)
    by reflexivity.
  rewrite E.
  pose proof (elements_quoted (ind ++ gap) ind l (blank_app _ _ B G) B
                x fuel [] rest) as M.
  cbn [map] in M. rewrite join_cons, <- app_assoc in M.
  apply M. simpl in L. lia.
Qed.

End ArrayRoundTrip.

(** *** Lengths of the texts, for the bound on the number of members *)

Lemma length_join_members (sep : JSON.text) (ms : list JSON.text) :
  List.length ms <= S (List.length (JSON.join (JSON.comma :: sep) ms)).
Proof.
  destruct ms as [|x ms]; simpl; [lia|].
  rewrite length_app.
  induction ms as [|y ms IH]; simpl; [lia|].
  rewrite length_app. lia.
Qed.

Lemma length_join_member (sep : JSON.text) (ms : list JSON.text) (m : JSON.text) :
  In m ms -> List.length m <= List.length (JSON.join sep ms).
Proof.
  destruct ms as [|x ms]; simpl; [intros []|].
  rewrite length_app. intros [->|I]; [lia|].
  induction ms as [|y ms IH]; simpl in *; [destruct I|].
  rewrite !length_app. destruct I as [->|I]; [lia|].
  specialize (IH I). lia.
Qed.

Lemma length_block_members opn cls gap ind (ms : list JSON.text) :
  List.length ms < List.length (JSON.block opn cls gap ind ms).
Proof.
  unfold JSON.block. destruct ms as [|x ms]; [simpl; lia|].
  pose proof (length_join_members (JSON.line gap (ind ++ gap)) (x :: ms)) as H.
  cbn [List.length] in *. rewrite !length_app. cbn [List.length]. lia.
Qed.

Lemma length_block_member opn cls gap ind (ms : list JSON.text) (m : JSON.text) :
  In m ms -> List.length m < List.length (JSON.block opn cls gap ind ms).
Proof.
  intros I. unfold JSON.block. destruct ms as [|x ms]; [destruct I|].
  pose proof (length_join_member (JSON.comma :: JSON.line gap (ind ++ gap))
                (x :: ms) m I) as H.
  cbn [List.length]. rewrite !length_app. cbn [List.length]. lia.
Qed.

Lemma length_member_value gap k (v : JSON.text) :
  List.length v <= List.length (JSON.member gap k v).
Proof.
  unfold JSON.member. rewrite length_app. cbn [List.length].
  rewrite length_app. destruct gap; cbn [List.length]; lia.
Qed.

(** *** Objects, catalogs and documents *)

Lemma read_items_map {A R : Type} (f : A -> R -> R) (g : A -> item R)
    (l : list A) (acc : R) :
  (forall a, snd (g a) = f a) ->
  read_items (map g l) acc = fold_left (fun r a => f a r) l acc.
Proof.
  intros H. unfold read_items. revert acc.
  induction l as [|a l IH]; intros acc; simpl; [reflexivity|].
  now rewrite H, IH.
Qed.

(** An object whose member values are read back by [pv] is read back as
    the object it was written from. *)
Lemma record_read {V : Type} (fuel : nat) (pv : JSON.parser V)
    (tv : JSON.text -> V -> JSON.text) (gap ind : JSON.text)
    (o : JsObject.t V) (rest : JSON.text) :
  blank ind -> blank gap ->
  JsObject.wf o = true ->
  List.length (JSON.object_text tv gap ind o) <= fuel ->
  (forall kv, In kv o ->
     solid (tv (ind ++ gap) (snd kv)) /\
     forall r, pv (tv (ind ++ gap) (snd kv) ++ r) = Some (snd kv, r)) ->
  JSON.record fuel pv (JSON.object_text tv gap ind o ++ rest) = Some (o, rest).
Proof.
  intros B G W L H. unfold JSON.record.
  pose (g := fun kv : string * V =>
               ((fst kv, tv (ind ++ gap) (snd kv), JsObject.set (fst kv) (snd kv))
                : item (JsObject.t V))).
  assert (E : JSON.object_text tv gap ind o
              = JSON.block JSON.lbrace JSON.rbrace gap ind
                  (map (item_text gap) (map g o))).
  { unfold JSON.object_text. now rewrite map_map. }
  rewrite E in *. rewrite object_items; try assumption.
  - rewrite (read_items_map (fun kv => JsObject.set (fst kv) (snd kv)) g)
      by reflexivity.
    change (fold_left _ o JsObject.empty) with (JsObject.of_list o).
    now rewrite of_list_wf.
  - apply Forall_forall. intros it I. apply in_map_iff in I.
    destruct I as [kv [<- I]]. destruct (H kv I) as [H1 H2].
    split; [exact H1|]. intros acc r. cbn [g fst snd]. now rewrite H2.
  - pose proof (length_block_members JSON.lbrace JSON.rbrace gap ind
                  (map (item_text gap) (map g o))) as K.
    rewrite !length_map in K. rewrite length_map. lia.
Qed.

Lemma in_object_text_bound {V : Type} (tv : JSON.text -> V -> JSON.text)
    (gap ind : JSON.text) (o : JsObject.t V) (kv : string * V) :
  In kv o ->
  List.length (tv (ind ++ gap) (snd kv)) < List.length (JSON.object_text tv gap ind o).
Proof.
  intros I. unfold JSON.object_text.
  eapply Nat.le_lt_trans; [apply (length_member_value gap (fst kv))|].
  apply length_block_member.
  apply in_map_iff. exists kv. now split.
Qed.

Lemma catalog_read (fuel : nat) (gap ind : JSON.text) (c : Catalog) (rest : JSON.text) :
  blank ind -> blank gap ->
  JsObject.wf c = true ->
  List.length (JSON.catalog_text gap ind c) <= fuel ->
  JSON.catalog_value fuel (JSON.catalog_text gap ind c ++ rest) = Some (c, rest).
Proof.
  intros B G W L. unfold JSON.catalog_value, JSON.catalog_text in *.
  apply record_read; try assumption.
  intros kv _. split; [apply solid_quote|]. intros r. apply string_lit_quote.
Qed.

Lemma solid_object_text {V : Type} (tv : JSON.text -> V -> JSON.text)
    (gap ind : JSON.text) (o : JsObject.t V) :
  solid (JSON.object_text tv gap ind o).
Proof. now apply solid_block. Qed.

Lemma catalogs_read (fuel : nat) (gap ind : JSON.text) (cs : JsObject.t Catalog)
    (rest : JSON.text) :
  blank ind -> blank gap ->
  wf_catalogs cs = true ->
  List.length (JSON.catalogs_text gap ind cs) <= fuel ->
  JSON.catalogs_value fuel (JSON.catalogs_text gap ind cs ++ rest) = Some (cs, rest).
Proof.
  intros B G W L. unfold wf_catalogs in W. apply andb_true_iff in W.
  destruct W as [W1 W2]. unfold JSON.catalogs_value, JSON.catalogs_text in *.
  apply record_read; try assumption.
  intros kv I. split; [apply solid_object_text|]. intros r.
  apply catalog_read; try assumption.
  - now apply blank_app.
  - rewrite forallb_forall in W2. now apply W2.
  - pose proof (in_object_text_bound (JSON.catalog_text gap) gap ind cs kv I).
    lia.
Qed.

Lemma opt_item_text {A R : Type} gap (k : string) (tv : A -> JSON.text)
    (upd : A -> R -> R) (o : option A) :
  map (item_text gap) (opt_item k tv upd o) = JSON.opt_member gap k tv o.
Proof. now destruct o. Qed.

Lemma workspaces_read (fuel : nat) (gap ind : JSON.text) (w : Workspaces)
    (rest : JSON.text) :
  blank ind -> blank gap ->
  wf_workspaces w = true ->
  List.length (JSON.workspaces_text gap ind w) <= fuel ->
  JSON.workspaces_value fuel (JSON.workspaces_text gap ind w ++ rest) = Some (w, rest).
Proof.
  intros B G W L. unfold JSON.workspaces_value.
  pose (items :=
          opt_item "packages" (JSON.array_text gap (ind ++ gap))
            (fun l => set_packages (Some l)) (packages w)
          ++ opt_item "catalog" (JSON.catalog_text gap (ind ++ gap))
               (fun c => set_catalog (Some c)) (catalog w)
          ++ opt_item "catalogs" (JSON.catalogs_text gap (ind ++ gap))
               (fun cs => set_catalogs (Some cs)) (catalogs w)).
  assert (E : JSON.workspaces_text gap ind w
              = JSON.block JSON.lbrace JSON.rbrace gap ind
                  (map (item_text gap) items)).
  { unfold JSON.workspaces_text, items. now rewrite !map_app, !opt_item_text. }
  rewrite E in *.
  assert (Bi : blank (ind ++ gap)) by now apply blank_app.
  assert (Hin : forall it, In it items ->
                  List.length (snd (fst it)) < fuel).
  { intros it I. eapply Nat.lt_le_trans; [|exact L].
    eapply Nat.le_lt_trans;
      [apply (length_member_value gap (fst (fst it)))|].
    apply length_block_member. apply in_map_iff. exists it. now split. }
  unfold wf_workspaces in W. apply andb_true_iff in W. destruct W as [W1 W2].
  rewrite object_items; try assumption.
  - f_equal. f_equal. unfold items. destruct w as [[l|] [c|] [cs|]]; reflexivity.
  - apply Forall_forall. intros it I. specialize (Hin it I).
    unfold items in I. rewrite !in_app_iff in I.
    destruct I as [I|[I|I]].
    + destruct (packages w) as [l|]; [|destruct I]. destruct I as [<-|[]].
      unfold reads. cbn [fst snd] in *. split; [now apply solid_block|]. intros acc r.
      unfold JSON.workspaces_field. cbn [String.eqb Ascii.eqb Bool.eqb].
      cbv beta iota. now rewrite array_quoted by
        (try assumption;
         pose proof (length_block_members JSON.lbracket JSON.rbracket gap
                       (ind ++ gap) (map JSON.quote l)) as K;
         rewrite length_map in K; unfold JSON.array_text in Hin; lia).
    + destruct (catalog w) as [c|]; [|destruct I]. destruct I as [<-|[]].
      unfold reads. cbn [fst snd] in *. split; [apply solid_object_text|]. intros acc r.
      unfold JSON.workspaces_field. cbn [String.eqb Ascii.eqb Bool.eqb].
      cbv beta iota. now rewrite catalog_read by (try assumption; lia).
    + destruct (catalogs w) as [cs|]; [|destruct I]. destruct I as [<-|[]].
      unfold reads. cbn [fst snd] in *. split; [apply solid_object_text|]. intros acc r.
      unfold JSON.workspaces_field. cbn [String.eqb Ascii.eqb Bool.eqb].
      cbv beta iota. now rewrite catalogs_read by (try assumption; lia).
  - pose proof (length_block_members JSON.lbrace JSON.rbrace gap ind
                  (map (item_text gap) items)) as K.
    rewrite length_map in K. lia.
Qed.

Lemma schema_read (fuel : nat) (gap : JSON.text) (d : BunWorkspaceSchema)
    (rest : JSON.text) :
  blank gap ->
  wf_schema d = true ->
  List.length (JSON.schema_text gap d) <= fuel ->
  JSON.schema_value fuel (JSON.schema_text gap d ++ rest) = Some (d, rest).
Proof.
  intros G W L. unfold JSON.schema_value.
  pose (items :=
          opt_item "workspaces" (JSON.workspaces_text gap gap)
            (fun w (_ : BunWorkspaceSchema) => mkSchema (Some w)) (workspaces d)).
  assert (E : JSON.schema_text gap d
              = JSON.block JSON.lbrace JSON.rbrace gap []
                  (map (item_text gap) items)).
  { unfold JSON.schema_text, items. now rewrite opt_item_text. }
  rewrite E in *.
  assert (B0 : blank []) by reflexivity.
  rewrite object_items; try assumption.
  - f_equal. f_equal. unfold items. destruct d as [[w|]]; reflexivity.
  - apply Forall_forall. intros it I. unfold items in I.
    destruct (workspaces d) as [w|] eqn:Ew; [|destruct I].
    destruct I as [<-|[]]. unfold reads. cbn [fst snd].
    split; [now apply solid_block|]. intros acc r.
    unfold JSON.schema_field. cbn [String.eqb Ascii.eqb Bool.eqb].
    cbv beta iota. rewrite workspaces_read; try assumption; [reflexivity| |].
    + unfold wf_schema in W. now rewrite Ew in W.
    + eapply Nat.le_trans; [|exact L].
      eapply Nat.le_trans;
        [apply (length_member_value gap "workspaces")|].
      apply Nat.lt_le_incl, length_block_member. unfold items. now left.
  - pose proof (length_block_members JSON.lbrace JSON.rbrace gap []
                  (map (item_text gap) items)) as K.
    rewrite length_map in K. lia.
Qed.

(** Round trip of the runtime: the text [JSON.stringify] writes for a
    well-formed document is parsed back to that document. *)
Lemma parse_stringify (d : BunWorkspaceSchema) (space : nat) :
  wf_schema d = true -> JSON.parse (JSON.stringify d space) = Some d.
Proof.
  intros W. unfold JSON.parse, JSON.stringify.
  rewrite list_ascii_of_string_of_list_ascii.
  assert (S : solid (JSON.schema_text (JSON.gap_of space) d))
    by now apply solid_block.
  pose proof (S []) as S0. rewrite app_nil_r in S0. rewrite S0.
  pose proof (schema_read (List.length (JSON.schema_text (JSON.gap_of space) d))
                (JSON.gap_of space) d [] (blank_gap_of space) W (Nat.le_refl _)) as H.
  rewrite app_nil_r in H. now rewrite H.
Qed.

(** C9. Round trip of the serialization: when [content] parses as a
    configuration document [d], [parseBunWorkspace(content)] returns an
    object, unchanged, whose [toString()] is the text [JSON.stringify]
    writes for [d] with an indentation of two spaces; that text parses
    back to [d], the value [content] parses to. *)
Theorem toString_round_trip (content : string) (d : BunWorkspaceSchema) :
  JSON.parse content = Some d ->
  exists e,
    parseBunWorkspace content = Normal e /\
    hasChanged e = false /\
    BunWorkspace.toString e = Normal (JSON.stringify d 2, e) /\
    JSON.parse (JSON.stringify d 2) = JSON.parse content.
Proof.
  intros H. unfold parseBunWorkspace. rewrite H. eexists.
  split; [reflexivity|]. split; [reflexivity|]. split; [reflexivity|].
  apply parse_stringify. now apply (parse_wf content).
Qed.

Lemma toString_round_trip_witness :
  exists e,
    parseBunWorkspace react_text = Normal e /\
    hasChanged e = false /\
    BunWorkspace.toString e = Normal (JSON.stringify react_document 2, e) /\
    JSON.parse (JSON.stringify react_document 2) = JSON.parse react_text.
Proof.
  apply toString_round_trip. reflexivity.
Defined.

(** The text returned need not be the text that was parsed. *)
Example toString_reformats :
  returns (on react_text BunWorkspace.toString) <> Some react_text.
Proof. intros H. vm_compute in H. discriminate H. Qed.

(** ** The calls keep the document well formed *)










(** ** The test suite of the repository, on the embedding *)


Example test_initialize_empty_workspace :
  returns (on empty_workspaces_text
    (BunWorkspace.setPackage "default" "react" "^18.2.0" ;;
     BunWorkspace.setPackage "vue" "vue" "^3.0.0" ;;
     a <- BunWorkspace.getCatalogVersion "default" "react" ;;
     b <- BunWorkspace.getCatalogVersion "vue" "vue" ;;
     l <- BunWorkspace.listCatalogs ;;
     p <- BunWorkspace.getCatalogPackages "default" ;;
     q <- BunWorkspace.getCatalogPackages "vue" ;;
     ret (a, b, l, p, q)))
  = Some (JsObject.Own "^18.2.0", JsObject.Own "^3.0.0", ["default"; "vue"],
          JsObject.Own [("react", "^18.2.0")], JsObject.Own [("vue", "^3.0.0")]).
Proof. reflexivity. Qed.

Example test_workspaces_from_empty_object :
  returns (on "{}"
    (BunWorkspace.setPackage "default" "pkg1" "1.0.0" ;;
     BunWorkspace.getContent))
  = Some (mkSchema (Some (mkWorkspaces None (Some [("pkg1", "1.0.0")]) None))).
Proof. reflexivity. Qed.

Example test_content_management :
  let newContent :=
    mkSchema (Some (mkWorkspaces None (Some [("test", "1.0.0")]) None)) in
  returns (on empty_workspaces_text
    (BunWorkspace.setContent newContent ;;
     d <- BunWorkspace.getContent ;;
     c <- BunWorkspace.hasChanged ;;
     v <- BunWorkspace.getCatalogVersion "default" "test" ;;
     l <- BunWorkspace.listCatalogs ;;
     ret (d, c, v, l)))
  = Some (newContent, true, JsObject.Own "1.0.0", ["default"]).
Proof. reflexivity. Qed.

Example test_serialize :
  returns (on (json "{'workspaces':{'catalog':{'test':'1.0.0'}}}")
    BunWorkspace.toString)
  = Some (json "{
  'workspaces': {
    'catalog': {
      'test': '1.0.0'
    }
  }
}").
Proof. reflexivity. Qed.

Example test_create_catalog_marks_changed :
  returns (on empty_workspaces_text
    (c0 <- BunWorkspace.hasChanged ;;
     BunWorkspace.createCatalog "test" ;;
     c1 <- BunWorkspace.hasChanged ;;
     l <- BunWorkspace.listCatalogs ;;
     ret (c0, c1, l)))
  = Some (false, true, ["test"]).
Proof. reflexivity. Qed.

Example test_create_default_catalog_marks_changed :
  returns (on empty_workspaces_text
    (BunWorkspace.createCatalog "default" ;;
     c1 <- BunWorkspace.hasChanged ;;
     l <- BunWorkspace.listCatalogs ;;
     ret (c1, l)))
  = Some (true, ["default"]).
Proof. reflexivity. Qed.

Example test_existing_catalog_not_changed :
  returns (on (json "{'workspaces':{'catalog':{},'catalogs':{'existing':{}}}}")
    (BunWorkspace.createCatalog "default" ;;
     BunWorkspace.createCatalog "existing" ;;
     BunWorkspace.hasChanged))
  = Some false.
Proof. reflexivity. Qed.

Example test_catalog_lifecycle :
  returns (on empty_workspaces_text
    (BunWorkspace.createCatalog "test" ;;
     BunWorkspace.setCatalogVersion "test" "package" "1.0.0" ;;
     v <- BunWorkspace.getCatalogVersion "test" "package" ;;
     BunWorkspace.removeCatalog "test" ;;
     w <- BunWorkspace.getCatalogVersion "test" "package" ;;
     l <- BunWorkspace.listCatalogs ;;
     ret (v, w, l)))
  = Some (JsObject.Own "1.0.0", JsObject.Absent, []).
Proof. reflexivity. Qed.

Example test_default_catalog_removal :
  returns (on (json "{'workspaces':{'catalog':{'pkg1':'1.0.0'}}}")
    (BunWorkspace.removeCatalog "default" ;;
     d <- BunWorkspace.getContent ;;
     c <- BunWorkspace.hasChanged ;;
     ret (d, c)))
  = Some (mkSchema (Some empty_workspaces), true).
Proof. reflexivity. Qed.

Example test_nonexistent_catalog_removal :
  returns (on empty_workspaces_text
    (BunWorkspace.removeCatalog "nonexistent" ;;
     d <- BunWorkspace.getContent ;;
     c <- BunWorkspace.hasChanged ;;
     ret (d, c)))
  = Some (mkSchema (Some empty_workspaces), false).
Proof. reflexivity. Qed.

Example test_catalog_operations :
  returns (on
    (json ("{'workspaces':{'catalog':{'@unocss/core':'^0.66.0','react':'^18.2.0'},"
           ++ "'catalogs':{'react18':{'next':'^14.0.0','react-dom':'^18.2.0',"
           ++ "'react':'^18.2.0'},'react19':{'react':'^19.0.0'}}}}"))
    (BunWorkspace.setPackage "react18" "@vue/compiler-sfc" "^3.0.0" ;;
     BunWorkspace.setPackage "react18" "vue" "^3.0.0" ;;
     BunWorkspace.setPackage "react18" "react" "^18.3.0" ;;
     BunWorkspace.setPackage "react19" "react" "^19.1.0" ;;
     l <- BunWorkspace.getPackageCatalogs "react" ;;
     v <- BunWorkspace.getCatalogVersion "react18" "vue" ;;
     w <- BunWorkspace.getCatalogVersion "react19" "react" ;;
     p <- BunWorkspace.getCatalogPackages "react18" ;;
     ret (l, v, w, p)))
  = Some (["react18"; "react19"; "default"],
          JsObject.Own "^3.0.0", JsObject.Own "^19.1.0",
          JsObject.Own
            [("next", "^14.0.0"); ("react-dom", "^18.2.0"); ("react", "^18.3.0");
             ("@vue/compiler-sfc", "^3.0.0"); ("vue", "^3.0.0")]).
Proof. reflexivity. Qed.

Example test_track_packages_across_catalogs :
  returns (on empty_workspaces_text
    (BunWorkspace.setPackage "default" "pkg1" "1.0.0" ;;
     BunWorkspace.setPackage "catalog1" "pkg1" "2.0.0" ;;
     BunWorkspace.setPackage "catalog2" "pkg1" "3.0.0" ;;
     BunWorkspace.getPackageCatalogs "pkg1"))
  = Some ["catalog1"; "catalog2"; "default"].
Proof. reflexivity. Qed.

Example test_initialize_catalogs_when_setting_package :
  returns (on empty_workspaces_text
    (BunWorkspace.setPackage "test" "pkg1" "1.0.0" ;;
     BunWorkspace.getContent))
  = Some (mkSchema (Some (mkWorkspaces None None
            (Some [("test", [("pkg1", "1.0.0")])])))).
Proof. reflexivity. Qed.

(** Catalogs named by array indices are listed first, whenever created. *)
Example index_names_listed_first :
  returns (on empty_workspaces_text
    (BunWorkspace.createCatalog "b" ;;
     BunWorkspace.createCatalog "10" ;;
     BunWorkspace.createCatalog "a" ;;
     BunWorkspace.createCatalog "2" ;;
     BunWorkspace.listCatalogs))
  = Some ["2"; "10"; "b"; "a"].
Proof. reflexivity. Qed.

Example test_not_json :
  parseBunWorkspace "{'workspaces':{}}" = Throw SyntaxError.
Proof. reflexivity. Qed.

(** A JSON text whose value is not of the declared type is taken as it
    is; the embedding stops there. *)
Example test_not_a_document :
  parseBunWorkspace "null" = Beyond /\
  parseBunWorkspace (json "{'workspaces': {'catalog': {'react': 18}}}") = Beyond.
Proof. split; reflexivity. Qed.

(** The names of the members of [Object.prototype], on the document of
    most tests. *)
Example test_prototype_names :
  returns (on empty_workspaces_text
    (BunWorkspace.createCatalog "toString" ;;
     c <- BunWorkspace.hasChanged ;;
     l <- BunWorkspace.listCatalogs ;;
     d <- BunWorkspace.getContent ;;
     BunWorkspace.removeCatalog "valueOf" ;;
     c' <- BunWorkspace.hasChanged ;;
     p <- BunWorkspace.getCatalogPackages "constructor" ;;
     ret (c, l, d, c', p)))
  = Some (false, [], mkSchema (Some (mkWorkspaces None None (Some []))), true,
          JsObject.Inherited) /\
  on empty_workspaces_text (BunWorkspace.setPackage "toString" "name" "1.0.0")
  = Throw TypeError /\
  on empty_workspaces_text (BunWorkspace.setPackage "__proto__" "p" "1")
  = Beyond.
Proof. repeat split. Qed.

(** ** Further properties of the catalog operations *)

Section SetFacts.
Context {V : Type}.
Implicit Types (o : JsObject.t V) (k : string).

Lemma set_get_same k (v : V) o :
  JsObject.get k o = Some v -> JsObject.set k v o = o.
Proof.
  intros G. unfold JsObject.set, JsObject.has. rewrite G.
  induction o as [|[k' v'] r IH]; simpl in *; [discriminate|].
  destruct (String.eqb_spec k k') as [->|N].
  - now injection G as ->.
  - now rewrite IH.
Qed.



Lemma keys_set_present k (x : V) o :
  JsObject.has k o = true -> JsObject.keys (JsObject.set k x o) = JsObject.keys o.
Proof.
  intros H. unfold JsObject.set. rewrite H. now apply keys_replace.
Qed.

Lemma delete_insert_index n k (v : V) o :
  JsObject.get k o = None ->
  JsObject.delete k (JsObject.insert_index n k v o) = o.
Proof.
  unfold JsObject.delete.
  induction o as [|[k' v'] r IH]; simpl; intros G.
  - now rewrite String.eqb_refl.
  - destruct (String.eqb k k') eqn:E; [discriminate|].
    pose proof (delete_absent k r G) as D. unfold JsObject.delete in D.
    destruct (JsObject.array_index k') as [m|]; [destruct (n <? m)%N|]; simpl;
      rewrite ?String.eqb_refl, ?E; simpl; rewrite ?E; simpl;
      try (now rewrite D).
    now rewrite IH.
Qed.

(** Deleting a property that was just created gives the object back. *)
Lemma delete_set_absent k (v : V) o :
  JsObject.get k o = None -> JsObject.delete k (JsObject.set k v o) = o.
Proof.
  intros G. unfold JsObject.set, JsObject.has. rewrite G.
  unfold JsObject.create. destruct (JsObject.array_index k) as [n|].
  - now apply delete_insert_index.
  - unfold JsObject.delete. rewrite filter_app. simpl.
    rewrite String.eqb_refl. simpl. rewrite app_nil_r.
    now apply (delete_absent k o).
Qed.

End SetFacts.

Lemma with_catalog_same (c : string) (x : Catalog) (d : BunWorkspaceSchema) :
  the_catalog c d = Some x -> with_catalog c x d = d.
Proof.
  unfold the_catalog, default_catalog, named_catalog, with_catalog.
  destruct d as [[[pk cat cats]|]]; simpl;
    destruct (String.eqb c "default"); simpl; try discriminate.
  - now intros ->.
  - destruct cats as [cs|]; simpl; [|discriminate].
    intros G. unfold set_catalogs. simpl. now rewrite set_get_same.
Qed.

Lemma with_catalog_twice (c : string) (x y : Catalog) (d : BunWorkspaceSchema) :
  with_catalog c y (with_catalog c x d) = with_catalog c y d.
Proof.
  unfold with_catalog.
  destruct d as [[[pk cat cats]|]]; simpl;
    destruct (String.eqb c "default"); simpl; try reflexivity;
    unfold set_catalogs; simpl; now rewrite set_set.
Qed.

Lemma the_catalog_written (c k p v : string) (d : BunWorkspaceSchema) :
  the_catalog k
    (with_catalog c
       (JsObject.assign p v (or_else (the_catalog c d) JsObject.empty)) d)
  = if String.eqb k c
    then Some (JsObject.assign p v (or_else (the_catalog c d) JsObject.empty))
    else the_catalog k d.
Proof.
  destruct (String.eqb_spec k c) as [->|N].
  - apply the_catalog_with_same.
  - now apply the_catalog_with_other.
Qed.

(** X1. Frame of a write, on an object that [parseBunWorkspace] returned
    and that calls other than [setContent] have changed, whose document
    has every object in one place: a [setPackage(c, p, v)] that stays in the document changes
    what [getCatalogVersion] returns for the catalog [c] only, and there
    for the package [p] and, when the call creates the catalog, for the
    names of the members of [Object.prototype], which the new object
    inherits.  Every other catalog that finds no member of
    [Object.prototype], and every other package of [c], reads as before. *)
Theorem setPackage_frame (e : Env) (c p v c' p' : string) :
  grown e ->
  inherits c (config e) = false ->
  inherits c' (config e) = false ->
  String.eqb c' c
  && (String.eqb p' p
      || JsObject.prototype_member p' && negb (catalog_exists c (config e))) = false ->
  exists e' r,
    BunWorkspace.setPackage c p v e = Normal (tt, e') /\
    BunWorkspace.getCatalogVersion c' p' e = Normal (r, e) /\
    BunWorkspace.getCatalogVersion c' p' e' = Normal (r, e').
Proof.
  intros _ I I' H. unfold BunWorkspace.setPackage.
  rewrite setCatalogVersion_eq. unfold written. rewrite I.
  eexists. eexists. split; [reflexivity|].
  rewrite getCatalogVersion_plain by exact I'. split; [reflexivity|].
  assert (T := the_catalog_written c c' p v (config e)).
  rewrite getCatalogVersion_plain.
  2:{ unfold inherits in *. simpl. rewrite T.
      destruct (String.eqb c' c); [apply andb_false_r|exact I']. }
  simpl. rewrite T. destruct (String.eqb_spec c' c) as [->|N]; [|reflexivity].
  simpl in H. apply orb_false_iff in H. destruct H as [H1 H2].
  apply String.eqb_neq in H1. unfold index, JsObject.lookup.
  rewrite get_assign_other by exact H1. unfold catalog_exists in H2.
  destruct (the_catalog c (config e)) as [x|]; simpl in *; [reflexivity|].
  rewrite andb_true_r in H2. now rewrite H2.
Qed.

Lemma setPackage_frame_witness :
  exists e' r,
    BunWorkspace.setPackage "react18" "vue" "^3.0.0" (mkEnv react_document false)
    = Normal (tt, e') /\
    BunWorkspace.getCatalogVersion "react18" "react" (mkEnv react_document false)
    = Normal (r, mkEnv react_document false) /\
    BunWorkspace.getCatalogVersion "react18" "react" e' = Normal (r, e').
Proof.
  apply (setPackage_frame (mkEnv react_document false)
           "react18" "vue" "^3.0.0" "react18" "react" react_document_grown);
    reflexivity.
Defined.

(** X2. The last write wins: [setPackage(c, p, v1)] followed by
    [setPackage(c, p, v2)] leaves the captured variables as
    [setPackage(c, p, v2)] alone does, the place of [p] in the catalog
    included. *)
Theorem setPackage_last_wins (e : Env) (c p v1 v2 : string) :
  (BunWorkspace.setPackage c p v1 ;; BunWorkspace.setPackage c p v2) e
  = BunWorkspace.setPackage c p v2 e.
Proof.
  unfold bind, BunWorkspace.setPackage. rewrite !setCatalogVersion_eq.
  unfold written. destruct (inherits c (config e)) eqn:I.
  - unfold write_builtin, builtin_write.
    now destruct (negb (String.eqb c "__proto__")
                  && (String.eqb p "name" || String.eqb p "length")).
  - rewrite setCatalogVersion_eq. unfold written. simpl.
    rewrite inherits_with_same.
    rewrite the_catalog_with_same, with_catalog_twice. simpl.
    now rewrite assign_assign.
Qed.




Lemma after_unchanged (c : call) (e e' : Env) :
  creates_plain c = true ->
  after c e = Normal (tt, e') -> hasChanged e' = false -> e' = e.
Proof.
  destruct c; simpl; intros P; try (now intros [= <-]).
  - intros A. apply written_normal in A. now destruct A as [_ ->].
  - unfold created. intros [= <-].
    destruct (the_catalog name (config e)); [reflexivity|].
    apply negb_true_iff in P. now rewrite P.
  - unfold removed. intros [= <-]. now destruct (found name (config e)).
  - intros A. apply written_normal in A. now destruct A as [_ ->].
  - destruct (reads_builtin catalogName (config e)); [discriminate|].
    now intros [= <-].
Qed.

(** X5. The flag has no false negatives, the names of the members of
    [Object.prototype] apart: after a sequence of calls that returns and in
    which [createCatalog] gets no such name, if [hasChanged()] is false
    then the captured variables, the document with them, are exactly as
    they were before the calls. *)
Theorem unchanged_flag_unchanged_document (cs : list call) (e e' : Env) :
  forallb creates_plain cs = true ->
  run cs e = Normal (tt, e') ->
  hasChanged e' = false -> e' = e.
Proof.
  revert e. induction cs as [|c r IH]; intros e F R H.
  - now injection R as <-.
  - simpl in F. apply andb_true_iff in F. destruct F as [F1 F2].
    rewrite run_cons in R.
    destruct (after c e) as [[[] e1]| |] eqn:A; try discriminate.
    pose proof (IH e1 F2 R H) as E. subst e'.
    now apply (after_unchanged c e e1).
Qed.

Lemma unchanged_flag_unchanged_document_witness :
  exists e',
    run [CreateCatalog "react18"; RemoveCatalog "nonexistent"; ListCatalogs;
         GetCatalogVersion "default" "react"]
      (mkEnv react_document false) = Normal (tt, e') /\
    e' = mkEnv react_document false.
Proof.
  eexists. split; [reflexivity|].
  apply (unchanged_flag_unchanged_document
           [CreateCatalog "react18"; RemoveCatalog "nonexistent"; ListCatalogs;
            GetCatalogVersion "default" "react"]
           (mkEnv react_document false));
    reflexivity.
Defined.







Lemma created_plain (n : string) (e : Env) :
  JsObject.prototype_member n = false ->
  created n e =
  match the_catalog n (config e) with
  | Some _ => e
  | None => mkEnv (with_catalog n JsObject.empty (config e)) true
  end.
Proof. intros P. unfold created. now rewrite P. Qed.



Lemma after_keeps_containers (c : call) (e e' : Env) :
  is_setContent c = false ->
  after c e = Normal (tt, e') ->
  (truthy_obj (workspaces (config e)) = true ->
   truthy_obj (workspaces (config e')) = true) /\
  (truthy_obj (workspaces (config e) ?. catalogs) = true ->
   truthy_obj (workspaces (config e') ?. catalogs) = true).
Proof.
  assert (W : forall n x d,
             (truthy_obj (workspaces d) = true ->
              truthy_obj (workspaces (with_catalog n x d)) = true) /\
             (truthy_obj (workspaces d ?. catalogs) = true ->
              truthy_obj (workspaces (with_catalog n x d) ?. catalogs) = true)).
  { intros n x [[[pk cat [cats|]]|]]; unfold with_catalog; simpl;
      destruct (String.eqb n "default"); simpl; easy. }
  destruct c; simpl; try easy; intros _; try (now intros [= <-]).
  - intros A. apply written_normal in A. destruct A as [_ ->]. apply W.
  - unfold created. intros [= <-].
    destruct (the_catalog name (config e)); [easy|].
    destruct (JsObject.prototype_member name); simpl; [|apply W].
    now destruct (config e) as [[[pk cat [cats|]]|]].
  - unfold removed. intros [= <-].
    destruct (found name (config e)); [|easy]. unfold without_catalog. simpl.
    destruct (config e) as [[[pk cat [cats|]]|]]; simpl;
      destruct (String.eqb name "default"); simpl; easy.
  - intros A. apply written_normal in A. destruct A as [_ ->]. apply W.
  - destruct (reads_builtin catalogName (config e)); [discriminate|].
    now intros [= <-].
Qed.

(** X10. The containers stay: no sequence of calls other than
    [setContent] that returns removes [workspaces] or
    [workspaces.catalogs] once they are there; in particular
    [removeCatalog] of the only named catalog leaves [workspaces.catalogs]
    in the document as an empty object. *)
Theorem containers_kept (cs : list call) (e : Env) :
  (forallb (fun c => negb (is_setContent c)) cs = true ->
   forall e',
     run cs e = Normal (tt, e') ->
     (truthy_obj (workspaces (config e)) = true ->
      truthy_obj (workspaces (config e')) = true) /\
     (truthy_obj (workspaces (config e) ?. catalogs) = true ->
      truthy_obj (workspaces (config e') ?. catalogs) = true)) /\
  (forall n c,
      n <> "default" ->
      workspaces (config e) ?. catalogs = Some [(n, c)] ->
      exists e',
        BunWorkspace.removeCatalog n e = Normal (tt, e') /\
        workspaces (config e') ?. catalogs = Some JsObject.empty).
Proof.
  split.
  - intros F e' R.
    apply (run_invariant
             (fun e0 =>
                (truthy_obj (workspaces (config e)) = true ->
                 truthy_obj (workspaces (config e0)) = true) /\
                (truthy_obj (workspaces (config e) ?. catalogs) = true ->
                 truthy_obj (workspaces (config e0) ?. catalogs) = true))
             (fun c => negb (is_setContent c)) ) with (cs := cs) (e := e);
      [|exact F|now split|exact R].
    intros c e0 e1 S [H1 H2] A. apply negb_true_iff in S.
    destruct (after_keeps_containers c e0 e1 S A) as [K1 K2].
    split; intros H; [apply K1, H1, H|apply K2, H2, H].
  - intros n c D H. rewrite removeCatalog_eq. apply String.eqb_neq in D.
    destruct e as [[[[pk cat cats]|]] ch]; simpl in *; [|discriminate].
    subst cats. unfold removed, found, entry, index, JsObject.lookup,
      without_catalog. simpl.
    rewrite D. simpl. rewrite String.eqb_refl. simpl.
    eexists. split; reflexivity.
Qed.

Lemma containers_kept_witness :
  (exists e',
      run [RemoveCatalog "react18"; RemoveCatalog "react19"; RemoveCatalog "default"]
        (mkEnv react_document false) = Normal (tt, e') /\
      truthy_obj (workspaces (config e')) = true /\
      truthy_obj (workspaces (config e') ?. catalogs) = true) /\
  (exists e',
      BunWorkspace.removeCatalog "test"
        (mkEnv (mkSchema (Some (mkWorkspaces None None
                  (Some [("test", [("pkg1", "1.0.0")])])))) false)
      = Normal (tt, e') /\
      workspaces (config e') ?. catalogs = Some JsObject.empty).
Proof.
  split.
  - eexists. split; [reflexivity|].
    destruct (proj1 (containers_kept
                [RemoveCatalog "react18"; RemoveCatalog "react19";
                 RemoveCatalog "default"]
                (mkEnv react_document false)) eq_refl _ eq_refl) as [H2 H3].
    split; [apply H2|apply H3]; reflexivity.
  - apply (proj2 (containers_kept []
                    (mkEnv (mkSchema (Some (mkWorkspaces None None
                       (Some [("test", [("pkg1", "1.0.0")])])))) false))
             "test" [("pkg1", "1.0.0")]).
    + discriminate.
    + reflexivity.
Defined.

(** X11. The two lookups agree, on an object that [parseBunWorkspace]
    returned and that calls other than [setContent] have changed: for a
    catalog name that finds no member
    of [Object.prototype], [getCatalogPackages(c)] returns an object of the
    document or a new empty one, and [getCatalogVersion(c, p)] returns the
    property [p] of it; the one exception is a missing catalog with the
    name of a member of [Object.prototype] for the package, which the new
    object inherits. *)
Theorem getCatalogPackages_agrees (e : Env) (c p : string) :
  grown e ->
  inherits c (config e) = false ->
  catalog_exists c (config e) || negb (JsObject.prototype_member p) = true ->
  exists o,
    BunWorkspace.getCatalogPackages c e = Normal (JsObject.Own o, e) /\
    BunWorkspace.getCatalogVersion c p e = Normal (JsObject.lookup p o, e).
Proof.
  intros _ I H.
  rewrite getCatalogPackages_plain, getCatalogVersion_plain by exact I.
  eexists. split; [reflexivity|]. unfold catalog_exists in H.
  destruct (the_catalog c (config e)); simpl in *; [reflexivity|].
  apply negb_true_iff in H. unfold JsObject.lookup. simpl. now rewrite H.
Qed.

Lemma getCatalogPackages_agrees_witness :
  exists o,
    BunWorkspace.getCatalogPackages "react18" (mkEnv react_document false)
    = Normal (JsObject.Own o, mkEnv react_document false) /\
    BunWorkspace.getCatalogVersion "react18" "constructor" (mkEnv react_document false)
    = Normal (JsObject.lookup "constructor" o, mkEnv react_document false).
Proof.
  apply (getCatalogPackages_agrees (mkEnv react_document false));
    [exact react_document_grown|reflexivity..].
Defined.




Lemma without_catalog_twice (n : string) (d : BunWorkspaceSchema) :
  without_catalog n (without_catalog n d) = without_catalog n d.
Proof.
  unfold without_catalog.
  destruct d as [[[pk cat [cats|]]|]]; simpl;
    destruct (String.eqb n "default"); simpl; try reflexivity.
  unfold set_catalogs. simpl. rewrite delete_absent by apply get_delete_same.
  reflexivity.
Qed.

(** X13. [removeCatalog] is idempotent: a second call in a row finds no
    catalog and leaves the captured variables as the first call left
    them. *)
Theorem removeCatalog_idempotent (e : Env) (n : string) :
  exists e1,
    BunWorkspace.removeCatalog n e = Normal (tt, e1) /\
    BunWorkspace.removeCatalog n e1 = Normal (tt, e1).
Proof.
  rewrite removeCatalog_eq. eexists. split; [reflexivity|].
  rewrite removeCatalog_eq. unfold removed.
  destruct (found n (config e)) eqn:F; simpl.
  - destruct (found n (without_catalog n (config e))); [|reflexivity].
    now rewrite without_catalog_twice.
  - now rewrite F.
Qed.

Lemma create_remove_observations (n : string) (d : BunWorkspaceSchema) :
  catalog_exists n d = false ->
  default_catalog (without_catalog n (with_catalog n JsObject.empty d))
  = default_catalog d /\
  named_keys (without_catalog n (with_catalog n JsObject.empty d))
  = named_keys d /\
  forall k,
    named_catalog k (without_catalog n (with_catalog n JsObject.empty d))
    = named_catalog k d.
Proof.
  unfold catalog_exists, the_catalog, default_catalog, named_catalog,
    named_keys, with_catalog, without_catalog.
  destruct d as [[[pk cat cats]|]]; simpl;
    destruct (String.eqb n "default") eqn:D; simpl; rewrite ?D; simpl.
  - destruct cat; [discriminate|]. intros _. repeat split; intros; reflexivity.
  - destruct cats as [cs|]; simpl.
    + destruct (JsObject.get n cs) eqn:G; [discriminate|]. intros _.
      rewrite delete_set_absent by exact G. repeat split; intros; reflexivity.
    + intros _. rewrite delete_set_absent by reflexivity.
      repeat split; intros; reflexivity.
  - intros _. repeat split; intros; reflexivity.
  - intros _. rewrite delete_set_absent by reflexivity.
    repeat split; intros; reflexivity.
Qed.

(** X14. Creating a catalog and removing it again is invisible to the
    reads, on an object that [parseBunWorkspace] returned and that calls
    other than [setContent] have changed: for a catalog that did not exist, under a name that is not that
    of a member of [Object.prototype], [createCatalog(n)] followed by
    [removeCatalog(n)] leaves [listCatalogs], [getPackageCatalogs] and, for
    every catalog name that finds no member of [Object.prototype],
    [getCatalogVersion] returning what they returned before, while
    [hasChanged] has become true. *)
Theorem create_then_remove_restores_reads (e : Env) (n : string) :
  grown e ->
  JsObject.prototype_member n = false ->
  catalog_exists n (config e) = false ->
  exists e2,
    (BunWorkspace.createCatalog n ;; BunWorkspace.removeCatalog n) e
    = Normal (tt, e2) /\
    hasChanged e2 = true /\
    (exists l, BunWorkspace.listCatalogs e = Normal (l, e) /\
               BunWorkspace.listCatalogs e2 = Normal (l, e2)) /\
    (forall c p,
        inherits c (config e) = false ->
        exists r,
          BunWorkspace.getCatalogVersion c p e = Normal (r, e) /\
          BunWorkspace.getCatalogVersion c p e2 = Normal (r, e2)) /\
    (forall p, exists l,
        BunWorkspace.getPackageCatalogs p e = Normal (l, e) /\
        BunWorkspace.getPackageCatalogs p e2 = Normal (l, e2)).
Proof.
  intros _ P X.
  destruct (create_remove_observations n (config e) X) as [O1 [O2 O3]].
  unfold bind. rewrite createCatalog_eq, created_plain by exact P.
  unfold catalog_exists in X.
  destruct (the_catalog n (config e)) eqn:T; [discriminate|].
  rewrite removeCatalog_eq. unfold removed. simpl.
  rewrite found_exists
    by (unfold catalog_exists; now rewrite the_catalog_with_same).
  eexists. split; [reflexivity|]. split; [reflexivity|].
  split; [|split].
  - rewrite !listCatalogs_eq. simpl. rewrite O1, O2. now eexists.
  - intros c p I. rewrite getCatalogVersion_plain by exact I.
    rewrite getCatalogVersion_plain.
    + simpl. unfold the_catalog. rewrite O1, O3. now eexists.
    + unfold inherits, the_catalog in *. simpl. now rewrite O1, O3.
  - intros p. rewrite !getPackageCatalogs_eq. simpl. rewrite O1, O2.
    eexists. split; [reflexivity|].
    rewrite (filter_ext _ (fun c => has_version p (named_catalog c (config e))))
      by (intros k; now rewrite O3).
    reflexivity.
Qed.

Lemma create_then_remove_restores_reads_witness :
  exists e2,
    (BunWorkspace.createCatalog "testing" ;; BunWorkspace.removeCatalog "testing")
      (mkEnv react_document false) = Normal (tt, e2) /\
    hasChanged e2 = true /\
    exists l, BunWorkspace.listCatalogs (mkEnv react_document false)
              = Normal (l, mkEnv react_document false) /\
              BunWorkspace.listCatalogs e2 = Normal (l, e2).
Proof.
  destruct (create_then_remove_restores_reads (mkEnv react_document false)
              "testing" react_document_grown eq_refl eq_refl)
    as [e2 [H1 [H2 [H3 _]]]].
  exists e2. split; [exact H1|]. split; [exact H2|exact H3].
Defined.

(** *** The documented variant against [src/index.ts] *)

Ltac doc_unfold :=
  unfold BunWorkspaceDoc.setPackage, BunWorkspaceDoc.createCatalog,
    BunWorkspaceDoc.removeCatalog, BunWorkspaceDoc.ensureWorkspaces,
    workspaces_ref, write_workspaces, when, deref,
    bind, ret, throw, beyond, read_config, write_config, write_hasChanged,
    chain, or_else, truthy_obj, index,
    set_catalog, set_catalogs, set_packages, empty_workspaces;
  simpl.

Lemma doc_setPackage_eq (c p v : string) (e : Env) :
  BunWorkspaceDoc.setPackage c p v e = written c p v e.
Proof.
  unfold BunWorkspaceDoc.setPackage, written, inherits, the_catalog,
    default_catalog, named_catalog, with_catalog.
  destruct (String.eqb_spec c "default") as [->|E].
  - change (JsObject.prototype_member "default") with false.
    env_cases e; doc_unfold; reflexivity.
  - env_cases e; doc_unfold; unfold JsObject.lookup; get_cases;
      try destruct (JsObject.prototype_member c) eqn:P; simpl;
      rewrite ?get_set_same; simpl;
      unfold write_builtin, builtin_write;
      try (destruct (negb (String.eqb c "__proto__")
                     && (String.eqb p "name" || String.eqb p "length"));
           reflexivity);
      repeat match goal with
             | H : Some _ = Some _ |- _ => injection H as <-
             | H : Some _ = None |- _ => discriminate H
             | H : None = Some _ |- _ => discriminate H
             end;
      rewrite ?set_set; reflexivity.
Qed.

Lemma doc_createCatalog_eq (name : string) (e : Env) :
  BunWorkspaceDoc.createCatalog name e = Normal (tt, created name e).
Proof.
  unfold created, the_catalog, default_catalog, named_catalog, with_catalog,
    with_containers.
  env_cases e; doc_unfold; destruct (String.eqb_spec name "default") as [->|E];
    try reflexivity; unfold JsObject.lookup; get_cases;
    try destruct (JsObject.prototype_member name); simpl;
    rewrite ?orb_false_r, ?orb_true_r; reflexivity.
Qed.

(** X15. The writers of the two variants agree: on every state,
    [setPackage] of the documented variant leaves the captured variables
    as [setPackage] and [setCatalogVersion] of [src/index.ts] do, and so
    does [createCatalog]; the catalog is created with its parents where
    missing, and the flag set by [setPackage] always. *)
Theorem variants_write_alike (e : Env) (c p v : string) :
  BunWorkspaceDoc.setPackage c p v e = BunWorkspace.setPackage c p v e /\
  BunWorkspaceDoc.setPackage c p v e = BunWorkspace.setCatalogVersion c p v e /\
  BunWorkspaceDoc.createCatalog c e = BunWorkspace.createCatalog c e.
Proof.
  unfold BunWorkspace.setPackage.
  now rewrite doc_setPackage_eq, setCatalogVersion_eq, doc_createCatalog_eq,
    createCatalog_eq.
Qed.

Lemma get_in_nodup {V : Type} (k : string) (v : V) (o : JsObject.t V) :
  NoDup (JsObject.keys o) -> In (k, v) o -> JsObject.get k o = Some v.
Proof.
  induction o as [|[k' v'] r IH]; simpl; [intros _ []|].
  intros N I. inversion N as [|? ? N1 N2]; subst.
  destruct I as [[= -> ->]|I].
  - now rewrite String.eqb_refl.
  - destruct (String.eqb_spec k k') as [->|D]; [|now apply IH].
    exfalso. apply N1. unfold JsObject.keys. apply in_map_iff.
    now exists (k', v).
Qed.

Lemma fold_push_entry (p : string) (l : JsObject.t Catalog) (acc : list string) :
  fold_left (BunWorkspaceDoc.push_entry p) l acc =
  acc ++ map fst (filter (fun kv : string * Catalog =>
                           truthy_version (JsObject.lookup p (snd kv))) l).
Proof.
  revert acc. induction l as [|kv r IH]; intros acc; simpl.
  - now rewrite app_nil_r.
  - rewrite IH. unfold BunWorkspaceDoc.push_entry.
    destruct (truthy_version (JsObject.lookup p (snd kv))); simpl;
      [now rewrite <- app_assoc|reflexivity].
Qed.

Lemma entries_as_keys (p : string) (cs l : JsObject.t Catalog) :
  (forall kv, In kv l -> JsObject.get (fst kv) cs = Some (snd kv)) ->
  map fst (filter (fun kv : string * Catalog =>
                     truthy_version (JsObject.lookup p (snd kv))) l)
  = filter (fun c => truthy_version (index (JsObject.get c cs) p))
      (JsObject.keys l).
Proof.
  induction l as [|kv r IH]; intros H; simpl; [reflexivity|].
  rewrite (H kv (or_introl eq_refl)). unfold index at 1.
  destruct (truthy_version (JsObject.lookup p (snd kv))); simpl;
    rewrite IH by (intros x I; apply H; now right); reflexivity.
Qed.

(** X16. The reads of the two variants agree: [getCatalogVersion],
    [listCatalogs] and [getCatalogPackages] of the documented variant
    return what those of [src/index.ts] return on every state, and so does
    [getPackageCatalogs], whose loop over [Object.entries] finds the names
    that the loop over [Object.keys] with a lookup finds, on every
    document whose objects list no key twice. *)
Theorem variants_read_alike (e : Env) (c p : string) :
  BunWorkspaceDoc.getCatalogVersion c p e = BunWorkspace.getCatalogVersion c p e /\
  BunWorkspaceDoc.listCatalogs e = BunWorkspace.listCatalogs e /\
  BunWorkspaceDoc.getCatalogPackages c e = BunWorkspace.getCatalogPackages c e /\
  (wf_schema (config e) = true ->
   BunWorkspaceDoc.getPackageCatalogs p e = BunWorkspace.getPackageCatalogs p e).
Proof.
  split; [|split; [|split]].
  - unfold BunWorkspaceDoc.getCatalogVersion, BunWorkspace.getCatalogVersion,
      bind, read_config, ret.
    now destruct (String.eqb c "default").
  - reflexivity.
  - unfold BunWorkspaceDoc.getCatalogPackages, BunWorkspace.getCatalogPackages,
      bind, read_config, ret.
    now destruct (String.eqb c "default").
  - intros W. pose proof (wf_catalogs_nodup (config e) W) as N.
    unfold BunWorkspaceDoc.getPackageCatalogs, BunWorkspace.getPackageCatalogs,
      bind, read_config, ret, named_keys in *.
    destruct (workspaces (config e) ?. catalogs) as [cs|]; [|reflexivity].
    rewrite fold_push_entry, fold_push_if_contains. unfold has_version.
    rewrite (entries_as_keys p cs cs); [reflexivity|].
    intros [k v] I. now apply get_in_nodup.
Qed.

Lemma variants_read_alike_witness :
  BunWorkspaceDoc.getPackageCatalogs "react" (mkEnv react_document false)
  = BunWorkspace.getPackageCatalogs "react" (mkEnv react_document false).
Proof.
  apply (proj2 (proj2 (proj2
           (variants_read_alike (mkEnv react_document false) "default" "react")))).
  reflexivity.
Defined.

(** X17. [removeCatalog] of the two variants: they leave the captured
    variables alike except in one case.  For the name "default", with no
    default catalog and a catalog stored under the key "default" of
    [workspaces.catalogs], the documented variant deletes that entry and
    sets the flag, where [src/index.ts] does nothing. *)
Theorem variants_removeCatalog (e : Env) (n : string) :
  (negb (String.eqb n "default")
   || truthy_obj (default_catalog (config e))
   || negb (truthy_obj (named_catalog "default" (config e))) = true ->
   BunWorkspaceDoc.removeCatalog n e = BunWorkspace.removeCatalog n e) /\
  (truthy_obj (default_catalog (config e)) = false ->
   truthy_obj (named_catalog "default" (config e)) = true ->
   exists e',
     BunWorkspaceDoc.removeCatalog "default" e = Normal (tt, e') /\
     named_catalog "default" (config e') = None /\
     hasChanged e' = true /\
     BunWorkspace.removeCatalog "default" e = Normal (tt, e)).
Proof.
  unfold default_catalog, named_catalog. split.
  - destruct (String.eqb_spec n "default") as [->|D].
    + env_cases e; simpl; try discriminate; intros H;
        unfold BunWorkspaceDoc.removeCatalog; js_unfold; try reflexivity;
        unfold JsObject.lookup;
        destruct (JsObject.get "default" cats); try discriminate; reflexivity.
    + intros _. apply String.eqb_neq in D.
      unfold BunWorkspaceDoc.removeCatalog, BunWorkspace.removeCatalog, bind,
        read_config.
      now rewrite D.
  - env_cases e; simpl; try discriminate; intros _ H;
      unfold BunWorkspaceDoc.removeCatalog; js_unfold;
      unfold JsObject.lookup;
      (destruct (JsObject.get "default" cats) eqn:G; [|discriminate]);
      simpl; eexists; (split; [reflexivity|]); simpl;
      rewrite get_delete_same; now repeat split.
Qed.

Lemma variants_removeCatalog_witness :
  BunWorkspaceDoc.removeCatalog "default" (mkEnv react_document false)
  = BunWorkspace.removeCatalog "default" (mkEnv react_document false) /\
  exists e',
    BunWorkspaceDoc.removeCatalog "default"
      (mkEnv (mkSchema (Some (mkWorkspaces None None
                (Some [("default", [("p", "1")]); ("x", [("p", "1")])])))) false)
    = Normal (tt, e') /\
    named_catalog "default" (config e') = None /\
    hasChanged e' = true.
Proof.
  split.
  - apply (proj1 (variants_removeCatalog (mkEnv react_document false) "default")).
    reflexivity.
  - destruct (proj2 (variants_removeCatalog
                (mkEnv (mkSchema (Some (mkWorkspaces None None
                   (Some [("default", [("p", "1")]); ("x", [("p", "1")])])))) false)
                "default") eq_refl eq_refl) as [e' [H1 [H2 [H3 _]]]].
    exists e'. split; [exact H1|]. split; [exact H2|exact H3].
Defined.




Lemma keys_set_absent_named {V : Type} (k : string) (v : V) (o : JsObject.t V) :
  JsObject.get k o = None -> JsObject.array_index k = None ->
  JsObject.keys (JsObject.set k v o) = JsObject.keys o ++ [k].
Proof.
  intros G A. unfold JsObject.set, JsObject.has, JsObject.create.
  rewrite G, A. unfold JsObject.keys. now rewrite map_app.
Qed.

(** X19. Where a written package goes, on an object that
    [parseBunWorkspace] returned and that calls other than [setContent]
    have changed: for a catalog name that finds no
    member of [Object.prototype] and a package name other than
    "__proto__", [setPackage(c, p, v)] on a package the catalog holds keeps
    the order of the packages that [getCatalogPackages(c)] returns, and on
    a new package whose name is not an array index puts it after the
    packages already there. *)
Theorem setPackage_package_order (e : Env) (c p v : string) :
  grown e ->
  inherits c (config e) = false ->
  String.eqb p "__proto__" = false ->
  exists e' o o',
    BunWorkspace.setPackage c p v e = Normal (tt, e') /\
    BunWorkspace.getCatalogPackages c e = Normal (JsObject.Own o, e) /\
    BunWorkspace.getCatalogPackages c e' = Normal (JsObject.Own o', e') /\
    (JsObject.has p o = true -> JsObject.keys o' = JsObject.keys o) /\
    (JsObject.has p o = false -> JsObject.array_index p = None ->
     JsObject.keys o' = JsObject.keys o ++ [p]).
Proof.
  intros _ I N. unfold BunWorkspace.setPackage. rewrite setCatalogVersion_eq.
  unfold written. rewrite I.
  eexists. eexists. eexists. split; [reflexivity|].
  rewrite getCatalogPackages_plain by exact I. split; [reflexivity|].
  rewrite getCatalogPackages_plain by apply inherits_with_same. simpl.
  rewrite the_catalog_with_same. split; [reflexivity|]. simpl.
  apply String.eqb_neq in N. rewrite assign_set by exact N. split.
  - apply keys_set_present.
  - intros H A. apply keys_set_absent_named; [|exact A].
    unfold JsObject.has in H.
    now destruct (JsObject.get p (or_else (the_catalog c (config e)) JsObject.empty)).
Qed.

Lemma setPackage_package_order_witness :
  exists e' o o',
    BunWorkspace.setPackage "react18" "vue" "^3.0.0" (mkEnv react_document false)
    = Normal (tt, e') /\
    BunWorkspace.getCatalogPackages "react18" (mkEnv react_document false)
    = Normal (JsObject.Own o, mkEnv react_document false) /\
    BunWorkspace.getCatalogPackages "react18" e' = Normal (JsObject.Own o', e') /\
    JsObject.keys o' = JsObject.keys o ++ ["vue"].
Proof.
  destruct (setPackage_package_order (mkEnv react_document false)
              "react18" "vue" "^3.0.0" react_document_grown eq_refl eq_refl)
    as [e' [o [o' [H1 [H2 [H3 [_ H4]]]]]]].
  exists e', o, o'. split; [exact H1|]. split; [exact H2|]. split; [exact H3|].
  apply H4; [|reflexivity].
  vm_compute in H2. injection H2 as <-. reflexivity.
Defined.

(** *** The names of the members of [Object.prototype] *)

Lemma listing_with_containers (d : BunWorkspaceSchema) :
  catalog_names (with_containers d) = catalog_names d.
Proof. now destruct d as [[[pk cat [cats|]]|]]. Qed.

(** X20. [createCatalog] with the name of a member of [Object.prototype]
    creates no catalog, on an object that [parseBunWorkspace] returned and
    that calls other than [setContent] have changed: where the document
    has no catalog of that name,
    the call creates [workspaces] and [workspaces.catalogs] where they are
    missing and stops at the member it finds under the name;
    [listCatalogs] returns what it returned before, and the flag is set
    only when [workspaces] was created. *)
Theorem createCatalog_prototype_name (e : Env) (n : string) :
  grown e ->
  JsObject.prototype_member n = true ->
  catalog_exists n (config e) = false ->
  exists e',
    BunWorkspace.createCatalog n e = Normal (tt, e') /\
    catalog_exists n (config e') = false /\
    truthy_obj (workspaces (config e') ?. catalogs) = true /\
    returns (BunWorkspace.listCatalogs e') = returns (BunWorkspace.listCatalogs e) /\
    hasChanged e' = hasChanged e || negb (truthy_obj (workspaces (config e))).
Proof.
  intros _ P X. rewrite createCatalog_eq. unfold created, catalog_exists in *.
  destruct (the_catalog n (config e)) eqn:T; [discriminate|]. rewrite P.
  eexists. split; [reflexivity|]. rewrite !listCatalogs_eq.
  cbn [config hasChanged returns].
  rewrite the_catalog_with_containers, T. split; [reflexivity|].
  split; [now destruct (config e) as [[[pk cat [cats|]]|]]|].
  split; [|reflexivity].
  change (Some (catalog_names (with_containers (config e)))
          = Some (catalog_names (config e))).
  now rewrite listing_with_containers.
Qed.

Lemma createCatalog_prototype_name_witness :
  exists e',
    BunWorkspace.createCatalog "toString"
      (mkEnv (mkSchema (Some empty_workspaces)) false) = Normal (tt, e') /\
    catalog_exists "toString" (config e') = false /\
    truthy_obj (workspaces (config e') ?. catalogs) = true /\
    returns (BunWorkspace.listCatalogs e') = Some [] /\
    hasChanged e' = false.
Proof.
  apply (createCatalog_prototype_name
           (mkEnv (mkSchema (Some empty_workspaces)) false) "toString");
    [exact empty_workspaces_grown|reflexivity..].
Defined.

(** X21. [removeCatalog] with the name of a member of [Object.prototype],
    on an object that [parseBunWorkspace] returned and that calls other
    than [setContent] have changed:
    where [workspaces.catalogs] exists and has no catalog of that name,
    the test of the call finds the member, nothing is deleted and the flag
    is set; without [workspaces.catalogs] the call does nothing. *)
Theorem removeCatalog_prototype_name (e : Env) (n : string) :
  grown e ->
  JsObject.prototype_member n = true ->
  catalog_exists n (config e) = false ->
  BunWorkspace.removeCatalog n e =
  Normal (tt, if truthy_obj (workspaces (config e) ?. catalogs)
              then mkEnv (config e) true else e).
Proof.
  intros _ P. rewrite removeCatalog_eq.
  unfold removed, found, catalog_exists, the_catalog, named_catalog, entry,
    index, JsObject.lookup, without_catalog.
  destruct (String.eqb_spec n "default") as [->|D]; [discriminate P|].
  destruct e as [[[[pk cat [cats|]]|]] ch]; simpl; try reflexivity.
  destruct (JsObject.get n cats) eqn:G; [discriminate|]. intros _.
  rewrite P. simpl. unfold set_catalogs. simpl.
  now rewrite delete_absent.
Qed.

Lemma removeCatalog_prototype_name_witness :
  BunWorkspace.removeCatalog "toString" (mkEnv react_document false)
  = Normal (tt, mkEnv react_document true).
Proof.
  apply (removeCatalog_prototype_name (mkEnv react_document false) "toString");
    [exact react_document_grown|reflexivity..].
Defined.

(** X22. A version for the package name "__proto__" is not stored, on an
    object that [parseBunWorkspace] returned and that calls other than
    [setContent] have changed: for a
    catalog name that finds no member of [Object.prototype] and a catalog
    without a property of its own called "__proto__",
    [setPackage(c, "__proto__", v)] creates what [createCatalog(c)]
    creates, sets the flag and leaves the packages of the catalog as they
    were; [getCatalogVersion(c, "__proto__")] then finds
    [Object.prototype]. *)
Theorem setPackage_proto_ignored (e : Env) (c v : string) :
  grown e ->
  inherits c (config e) = false ->
  contains "__proto__" (the_catalog c (config e)) = false ->
  exists e',
    BunWorkspace.setPackage c "__proto__" v e = Normal (tt, e') /\
    hasChanged e' = true /\
    the_catalog c (config e')
    = Some (or_else (the_catalog c (config e)) JsObject.empty) /\
    (exists e1, BunWorkspace.createCatalog c e = Normal (tt, e1) /\
                config e' = config e1) /\
    BunWorkspace.getCatalogVersion c "__proto__" e' = Normal (JsObject.Inherited, e').
Proof.
  intros _ I H. unfold BunWorkspace.setPackage. rewrite setCatalogVersion_eq.
  unfold written. rewrite I.
  assert (A : JsObject.assign "__proto__" v
                (or_else (the_catalog c (config e)) JsObject.empty)
              = or_else (the_catalog c (config e)) JsObject.empty).
  { unfold JsObject.assign, JsObject.has. unfold contains in H.
    destruct (the_catalog c (config e)) as [x|]; simpl in *; [|reflexivity].
    now destruct (JsObject.get "__proto__" x). }
  rewrite A. eexists. split; [reflexivity|]. split; [reflexivity|]. simpl.
  rewrite the_catalog_with_same. split; [reflexivity|]. split.
  - rewrite createCatalog_eq. eexists. split; [reflexivity|].
    unfold created, inherits in *.
    destruct (the_catalog c (config e)) as [x|] eqn:T; simpl in *.
    + now apply with_catalog_same.
    + rewrite andb_true_r in I. now rewrite I.
  - rewrite getCatalogVersion_plain by apply inherits_with_same. simpl.
    rewrite the_catalog_with_same. simpl. unfold JsObject.lookup.
    unfold contains in H.
    destruct (the_catalog c (config e)) as [x|]; simpl in *; [|reflexivity].
    now destruct (JsObject.get "__proto__" x).
Qed.

Lemma setPackage_proto_ignored_witness :
  exists e',
    BunWorkspace.setPackage "react18" "__proto__" "1.0.0" (mkEnv react_document false)
    = Normal (tt, e') /\
    hasChanged e' = true /\
    the_catalog "react18" (config e') = Some [("react", "^18.2.0")] /\
    (exists e1, BunWorkspace.createCatalog "react18" (mkEnv react_document false)
                = Normal (tt, e1) /\
                config e' = config e1) /\
    BunWorkspace.getCatalogVersion "react18" "__proto__" e'
    = Normal (JsObject.Inherited, e').
Proof.
  apply (setPackage_proto_ignored (mkEnv react_document false) "react18" "1.0.0");
    [exact react_document_grown|reflexivity..].
Defined.
